(** * Syt: an advisory check-out / check-in log kept in a Synapse table

    Shallow embedding of [syt.py].  The Python class [Syt] talks to a
    remote Synapse project through [synapseclient]; the class itself is
    embedded method by method in a state-and-exception monad, and the
    remote service is represented by a small executable model
    ([Module Synapse]) of the calls the class makes: [get], [getChildren],
    [tableQuery] and [store]. *)

From Stdlib Require Import ZArith List String Ascii Bool Lia Arith.
From Stdlib Require Import Permutation Sorted DecimalString.
Import ListNotations.
Local Open Scope string_scope.
Local Open Scope list_scope.

(** ** Python values, exceptions and the string methods the class uses *)

Module Py.

(** Cell values of a table row as Python sees them. *)
Inductive value : Type :=
| VNone
| VInt (z : Z)
| VStr (s : string).

(** Python [==] on these values. *)
Definition eqb (a b : value) : bool :=
  match a, b with
  | VNone, VNone => true
  | VInt x, VInt y => Z.eqb x y
  | VStr x, VStr y => String.eqb x y
  | _, _ => false
  end.

(** Truth value of an object, as used by [or] and [if]. *)
Definition truthy (v : value) : bool :=
  match v with
  | VNone => false
  | VInt z => negb (Z.eqb z 0)
  | VStr s => negb (String.eqb s EmptyString)
  end.

(** [a or b]. *)
Definition or_ (a b : value) : value := if truthy a then a else b.

(** Lifting of an optional string: an absent one is [None]. *)
Definition of_option (o : option string) : value :=
  match o with
  | Some s => VStr s
  | None => VNone
  end.

Definition string_of_Z (z : Z) : string := NilZero.string_of_int (Z.to_int z).

(** [str(v)], which is what ["{0}".format(v)] renders. *)
Definition str (v : value) : string :=
  match v with
  | VNone => "None"
  | VInt z => string_of_Z z
  | VStr s => s
  end.

Inductive exn : Type :=
| TypeError
| IndexError
| AttributeError
| RecursionError
| EOFError
| SynapseHTTPError (code : nat).

Inductive outcome (A : Type) : Type :=
| Return (a : A)
| Raise (e : exn).
Arguments Return {A} a.
Arguments Raise {A} e.

(** [row[i]] where [i] is what [_get_table_column_index] returned:
    [None] is not an index (TypeError) and an index past the end is an
    IndexError. *)
Definition getitem (row : list value) (i : option nat) : outcome value :=
  match i with
  | None => Raise TypeError
  | Some n =>
      match nth_error row n with
      | Some v => Return v
      | None => Raise IndexError
      end
  end.

Fixpoint list_set (row : list value) (n : nat) (v : value) : option (list value) :=
  match row, n with
  | [], _ => None
  | _ :: tl, O => Some (v :: tl)
  | hd :: tl, S k =>
      match list_set tl k v with
      | Some tl' => Some (hd :: tl')
      | None => None
      end
  end.

(** [row[i] = v]. *)
Definition setitem (row : list value) (i : option nat) (v : value)
  : outcome (list value) :=
  match i with
  | None => Raise TypeError
  | Some n =>
      match list_set row n v with
      | Some row' => Return row'
      | None => Raise IndexError
      end
  end.

(** [s.split(sep)] for a one-character separator. *)
Fixpoint split (sep : ascii) (s : string) : list string :=
  match s with
  | EmptyString => [EmptyString]
  | String c rest =>
      if Ascii.eqb c sep then EmptyString :: split sep rest
      else
        match split sep rest with
        | [] => [String c EmptyString]
        | f :: fs => String c f :: fs
        end
  end.

(** [l[-1]] on a list of strings that [split] produced (never empty). *)
Definition last_item (l : list string) : string := last l EmptyString.

(** [s.replace(old, new)] for a non-empty [old]: non-overlapping
    occurrences are replaced from left to right.  [skip] counts the
    characters of a matched occurrence still to be dropped. *)
Fixpoint replace_from (old new : string) (skip : nat) (s : string) : string :=
  match s with
  | EmptyString => EmptyString
  | String c rest =>
      match skip with
      | S k => replace_from old new k rest
      | O =>
          if prefix old s
          then new ++ replace_from old new (String.length old - 1) rest
          else String c (replace_from old new 0 rest)
      end
  end.

Definition replace (old new s : string) : string := replace_from old new 0 s.

(** [char * n]. *)
Fixpoint repeat_char (c : ascii) (n : nat) : string :=
  match n with
  | O => EmptyString
  | S k => String c (repeat_char c k)
  end.

(** [x in l] for a list of strings. *)
Definition str_in (x : string) (l : list string) : bool :=
  existsb (String.eqb x) l.

End Py.

Import Py.

(** ** The remote service

    Model of the part of Synapse that [syt.py] drives through
    [synapseclient], with the behaviour the specification gives its
    versioned log store.  Entities carry an id, a name, a type string and
    a parent id.  Tables live under a project; a table is identified by
    its position in the service's table list, its rows by their position
    in the table, so ids are unique by construction and nothing is ever
    deleted.  A query result carries the rows, each with its [ROW_ID] and
    [ROW_VERSION] in front, the matching headers and the table's version
    token (etag).  A row write without a token appends; a row write with a
    token is a conditional update, accepted only when the token is the
    table's current one; every accepted write renews the token. *)

Module Synapse.

Record Entity : Type := mkEntity {
  e_id : string;
  e_name : string;
  e_entityType : string;
  e_parentId : string
}.

Definition tid := nat.

Record TableData : Type := mkTable {
  t_name : string;
  t_parentId : string;
  t_columns : list string;
  t_rows : list (Z * list value);   (* row version, cells *)
  t_etag : nat
}.

Record World : Type := mkWorld {
  w_entities : list Entity;
  w_tables : list TableData;
  w_clock : Z                        (* UTC wall clock, microseconds since the epoch *)
}.

(** The result of [tableQuery]: iterating it yields [q_rows]. *)
Record QueryResult : Type := mkQuery {
  q_rows : list (list value);
  q_headers : list string;
  q_etag : nat
}.

(** What [Table(schema, values, etag=, headers=)] is built from. *)
Record TableReq : Type := mkReq {
  r_table : tid;
  r_rows : list (list value);
  r_etag : option nat;
  r_headers : option (list string)
}.

Inductive direction : Type := asc | desc.

Definition Project_type : string := "org.sagebionetworks.repo.model.Project".

(** [isinstance(e, Project)]: the client maps the type string to a class. *)
Definition is_Project (e : Entity) : bool :=
  String.eqb (e_entityType e) Project_type.

Definition get (w : World) (id : string) : outcome Entity :=
  match find (fun e => String.eqb (e_id e) id) (w_entities w) with
  | Some e => Return e
  | None => Raise (SynapseHTTPError 404)
  end.

Definition get_table (w : World) (t : tid) : outcome tid :=
  match nth_error (w_tables w) t with
  | Some _ => Return t
  | None => Raise (SynapseHTTPError 404)
  end.

(** [getChildren(project, ["table"])]: name and id of each table under
    the project, in creation order. *)
Fixpoint children_from (pid : string) (i : nat) (ts : list TableData)
  : list (string * tid) :=
  match ts with
  | [] => []
  | t :: rest =>
      if String.eqb (t_parentId t) pid
      then (t_name t, i) :: children_from pid (S i) rest
      else children_from pid (S i) rest
  end.

Definition getChildren (w : World) (p : Entity) : list (string * tid) :=
  children_from (e_id p) 0 (w_tables w).

(** *** Queries *)

Fixpoint index_of (name : string) (l : list string) : option nat :=
  match l with
  | [] => None
  | x :: rest =>
      if String.eqb x name then Some O
      else option_map S (index_of name rest)
  end.

Definition sort_key (v : value) : option Z :=
  match v with
  | VInt z => Some z
  | _ => None
  end.

(** Order on sort keys: a cell that is not a number comes first. *)
Definition key_leb (a b : option Z) : bool :=
  match a, b with
  | None, _ => true
  | Some _, None => false
  | Some x, Some y => Z.leb x y
  end.

Fixpoint insert_by {A : Type} (leb : A -> A -> bool) (x : A) (l : list A) : list A :=
  match l with
  | [] => [x]
  | y :: rest => if leb x y then x :: l else y :: insert_by leb x rest
  end.

Definition sort_by {A : Type} (leb : A -> A -> bool) (l : list A) : list A :=
  fold_right (insert_by leb) [] l.

Fixpoint with_row_ids (i : nat) (rows : list (Z * list value)) : list (list value) :=
  match rows with
  | [] => []
  | (ver, cells) :: rest =>
      (VInt (Z.of_nat i) :: VInt ver :: cells) :: with_row_ids (S i) rest
  end.

Definition query_headers (t : TableData) : list string :=
  "ROW_ID" :: "ROW_VERSION" :: t_columns t.

Definition cell_key (col : nat) (row : list value) : option Z :=
  sort_key (nth col row VNone).

Definition row_leb (d : direction) (col : nat) (a b : list value) : bool :=
  match d with
  | asc => key_leb (cell_key col a) (cell_key col b)
  | desc => key_leb (cell_key col b) (cell_key col a)
  end.

(** ["select * from T ORDER BY col dir"]. *)
Definition tableQuery (w : World) (t : tid) (col : string) (d : direction)
  : outcome QueryResult :=
  match nth_error (w_tables w) t with
  | None => Raise (SynapseHTTPError 404)
  | Some tb =>
      match index_of col (query_headers tb) with
      | None => Raise (SynapseHTTPError 400)
      | Some c =>
          Return {| q_rows := sort_by (row_leb d c) (with_row_ids 0 (t_rows tb));
                    q_headers := query_headers tb;
                    q_etag := t_etag tb |}
      end
  end.

(** *** Writes *)

Fixpoint replace_nth {A : Type} (n : nat) (x : A) (l : list A) : list A :=
  match l, n with
  | [], _ => []
  | _ :: tl, O => x :: tl
  | hd :: tl, S k => hd :: replace_nth k x tl
  end.

Definition set_table (w : World) (t : tid) (tb : TableData) : World :=
  {| w_entities := w_entities w;
     w_tables := replace_nth t tb (w_tables w);
     w_clock := w_clock w |}.

(** [store(Schema(name, columns, parent))]: a new, empty table. *)
Definition store_schema (w : World) (name : string) (cols : list string)
           (parent : Entity) : tid * World :=
  (List.length (w_tables w),
   {| w_entities := w_entities w;
      w_tables := w_tables w ++
                  [ {| t_name := name; t_parentId := e_id parent;
                       t_columns := cols; t_rows := []; t_etag := 0 |} ];
      w_clock := w_clock w |}).

(** Appending rows: each must have one cell per column. *)
Definition append_rows (tb : TableData) (rows : list (list value)) : option TableData :=
  if forallb (fun r => Nat.eqb (List.length r) (List.length (t_columns tb))) rows
  then Some {| t_name := t_name tb; t_parentId := t_parentId tb;
               t_columns := t_columns tb;
               t_rows := t_rows tb ++ map (fun r => (Z.of_nat (S (t_etag tb)), r)) rows;
               t_etag := S (t_etag tb) |}
  else None.

(** Updating one row in place: the row names its [ROW_ID] in its first
    cell and carries one cell per header. *)
Definition update_row (tb : TableData) (row : list value)
  : option (list (Z * list value)) :=
  match row with
  | VInt i :: VInt _ :: cells =>
      if (Z.leb 0 i && Nat.ltb (Z.to_nat i) (List.length (t_rows tb))
          && Nat.eqb (List.length cells) (List.length (t_columns tb)))%bool
      then Some (replace_nth (Z.to_nat i) (Z.of_nat (S (t_etag tb)), cells) (t_rows tb))
      else None
  | _ => None
  end.

Fixpoint update_rows (tb : TableData) (rows : list (list value)) : option TableData :=
  match rows with
  | [] => Some tb
  | r :: rest =>
      match update_row tb r with
      | Some rs =>
          update_rows {| t_name := t_name tb; t_parentId := t_parentId tb;
                         t_columns := t_columns tb; t_rows := rs;
                         t_etag := t_etag tb |} rest
      | None => None
      end
  end.

Definition bump (tb : TableData) : TableData :=
  {| t_name := t_name tb; t_parentId := t_parentId tb;
     t_columns := t_columns tb; t_rows := t_rows tb;
     t_etag := S (t_etag tb) |}.

Fixpoint list_eqb (a b : list string) : bool :=
  match a, b with
  | [], [] => true
  | x :: a', y :: b' => String.eqb x y && list_eqb a' b'
  | _, _ => false
  end.

(** [store(Table(...))].  Without a token the rows are appended; with a
    token the write is a conditional update, refused with 412 when the
    token is not the table's current one. *)
Definition store_table (w : World) (r : TableReq) : outcome unit * World :=
  match nth_error (w_tables w) (r_table r) with
  | None => (Raise (SynapseHTTPError 404), w)
  | Some tb =>
      match r_etag r with
      | None =>
          match append_rows tb (r_rows r) with
          | Some tb' => (Return tt, set_table w (r_table r) tb')
          | None => (Raise (SynapseHTTPError 400), w)
          end
      | Some e =>
          if negb (Nat.eqb e (t_etag tb)) then (Raise (SynapseHTTPError 412), w)
          else
            match r_headers r with
            | None => (Raise (SynapseHTTPError 400), w)
            | Some hs =>
                if negb (list_eqb hs (query_headers tb))
                then (Raise (SynapseHTTPError 400), w)
                else
                  match update_rows tb (r_rows r) with
                  | Some tb' => (Return tt, set_table w (r_table r) (bump tb'))
                  | None => (Raise (SynapseHTTPError 400), w)
                  end
            end
      end
  end.

End Synapse.

Import Synapse.

(** ** The [Syt] class *)

Module Syt.

Definition SYT_TABLE_NAME : string := "syt_log".
Definition SYT_COL_USER : string := "user".
Definition SYT_COL_ENTITY : string := "entity".
Definition SYT_COL_CHECKED_OUT : string := "checked_out".
Definition SYT_COL_CHECKED_IN : string := "checked_in".
Definition SYT_COL_MESSAGE : string := "message".

(** The columns [_ensure_access_log] gives a new log table. *)
Definition SYT_COLUMNS : list string :=
  [SYT_COL_USER; SYT_COL_ENTITY; SYT_COL_CHECKED_OUT; SYT_COL_CHECKED_IN;
   SYT_COL_MESSAGE].

(** What evaluating the [class Syt:] statement fixes: the default value
    of [_get_synapse_timestamp]'s [date_time] parameter is the value
    [datetime.datetime.utcnow()] had when the [def] was executed. *)
Record Class : Type := mkClass {
  default_date_time : Z              (* microseconds since the epoch *)
}.

Definition define_class (w : World) : Class :=
  {| default_date_time := w_clock w |}.

(** The instance attributes ([self._user.ownerId], [self._project],
    [self._entity], [self._table]). *)
Record Self : Type := mkSelf {
  _user_ownerId : string;
  _project : option Entity;
  _entity : option Entity;
  _table : option tid
}.

(** The object [__init__] leaves once the login has succeeded. *)
Definition init (ownerId : string) : Self :=
  {| _user_ownerId := ownerId; _project := None; _entity := None; _table := None |}.

(** Calls made on [self._synapse_client], in the order they are made. *)
Inductive Call : Type :=
| CallGet (id : string)
| CallGetTable (t : tid)
| CallGetChildren (pid : string)
| CallTableQuery (t : tid) (col : string) (d : direction)
| CallStoreSchema (name : string) (cols : list string) (parent : string)
| CallStoreTable (r : TableReq).

(** What the rest of the world does between two calls of this process:
    nothing, let time pass, or another client's row write. *)
Inductive ExtEvent : Type :=
| Quiet
| Elapse (us : Z)
| OtherStore (r : TableReq).

Definition happen (ev : ExtEvent) (w : World) : World :=
  match ev with
  | Quiet => w
  | Elapse us => {| w_entities := w_entities w; w_tables := w_tables w;
                    w_clock := w_clock w + us |}
  | OtherStore r => snd (store_table w r)
  end.

Record State : Type := mkState {
  self : Self;
  cls : Class;
  world : World;
  schedule : list ExtEvent;
  calls : list Call;
  stdout : list string
}.

Definition M (A : Type) : Type := State -> outcome A * State.

Definition ret {A : Type} (a : A) : M A := fun st => (Return a, st).

Definition raise {A : Type} (e : exn) : M A := fun st => (Raise e, st).

Definition bind {A B : Type} (m : M A) (k : A -> M B) : M B :=
  fun st =>
    match m st with
    | (Return a, st') => k a st'
    | (Raise e, st') => (Raise e, st')
    end.

Declare Scope syt_scope.
Delimit Scope syt_scope with syt.
Notation "x <- m ;; k" := (bind m (fun x => k))
  (at level 61, m at next level, right associativity) : syt_scope.
Notation "m ;;; k" := (bind m (fun _ => k))
  (at level 61, right associativity) : syt_scope.
Local Open Scope syt_scope.

(** A value computed without touching the state, or its exception. *)
Definition lift {A : Type} (o : outcome A) : M A := fun st => (o, st).

Definition print (line : string) : M unit :=
  fun st =>
    (Return tt,
     {| self := self st; cls := cls st; world := world st;
        schedule := schedule st; calls := calls st;
        stdout := stdout st ++ [line] |}).

Definition get_self : M Self := fun st => (Return (self st), st).

Definition set_self (s : Self) : M unit :=
  fun st =>
    (Return tt,
     {| self := s; cls := cls st; world := world st;
        schedule := schedule st; calls := calls st; stdout := stdout st |}).

(** One call on the client: the next scheduled outside event happens
    first, then the service answers. *)
Definition remote {A : Type} (c : Call) (f : World -> outcome A * World) : M A :=
  fun st =>
    let w0 := match schedule st with
              | [] => world st
              | ev :: _ => happen ev (world st)
              end in
    let (r, w1) := f w0 in
    (r, {| self := self st; cls := cls st; world := w1;
           schedule := tl (schedule st); calls := calls st ++ [c];
           stdout := stdout st |}).

(** [self._table.id], [self._entity.id]: an attribute of [None] raises. *)
Definition attr {A : Type} (o : option A) : M A :=
  match o with
  | Some a => ret a
  | None => raise AttributeError
  end.

(** *** Timestamps *)

(** [date_time.timetuple()] keeps whole seconds; [calendar.timegm] turns
    the UTC time tuple into seconds since the epoch. *)
Definition timetuple (date_time : Z) : Z := date_time / 1000000.
Definition timegm (time_tuple : Z) : Z := time_tuple.

Definition _get_synapse_timestamp (c : Class) (date_time : option Z) : Z :=
  let date_time := match date_time with
                   | Some d => d
                   | None => default_date_time c
                   end in
  timegm (timetuple date_time) * 1000.

(** Milliseconds since the epoch at the wall clock's current instant. *)
Definition now_ms (w : World) : Z := w_clock w / 1000.

(** *** Column lookup *)

Fixpoint column_index_from (index : nat) (headers : list string)
         (column_name : string) : option nat :=
  match headers with
  | [] => None
  | item :: rest =>
      if String.eqb item column_name then Some index
      else column_index_from (S index) rest column_name
  end.

Definition _get_table_column_index (headers : list string) (column_name : string)
  : option nat :=
  column_index_from 0 headers column_name.

(** *** Loading *)

Definition _load_syt_log (order : direction) : M QueryResult :=
  s <- get_self ;;
  t <- attr (_table s) ;;
  remote (CallTableQuery t SYT_COL_CHECKED_OUT order)
         (fun w => (tableQuery w t SYT_COL_CHECKED_OUT order, w)).

Definition recursion_limit : nat := 1000.

Fixpoint _load_project_for (depth : nat) (child : Entity) : M Entity :=
  match depth with
  | O => raise RecursionError
  | S k =>
      parent <- remote (CallGet (e_parentId child))
                       (fun w => (get w (e_parentId child), w)) ;;
      if negb (is_Project parent) then _load_project_for k parent
      else ret parent
  end.

Fixpoint find_named (name : string) (tables : list (string * tid)) : option tid :=
  match tables with
  | [] => None
  | (n, i) :: rest => if String.eqb n name then Some i else find_named name rest
  end.

Definition set_table_attr (t : option tid) : M unit :=
  s <- get_self ;;
  set_self {| _user_ownerId := _user_ownerId s; _project := _project s;
              _entity := _entity s; _table := t |}.

Definition _ensure_access_log (project : Entity) : M unit :=
  print "Loading tables..." ;;;
  tables <- remote (CallGetChildren (e_id project))
                   (fun w => (Return (getChildren w project), w)) ;;
  match find_named SYT_TABLE_NAME tables with
  | Some i =>
      print "Loading table..." ;;;
      t <- remote (CallGetTable i) (fun w => (get_table w i, w)) ;;
      set_table_attr (Some t)
  | None => ret tt
  end ;;;
  s <- get_self ;;
  match _table s with
  | None =>
      print "Creating table..." ;;;
      t <- remote (CallStoreSchema SYT_TABLE_NAME SYT_COLUMNS (e_id project))
                  (fun w => let (t, w') := store_schema w SYT_TABLE_NAME SYT_COLUMNS project
                            in (Return t, w')) ;;
      set_table_attr (Some t)
  | Some _ => ret tt
  end.

(** [entityType.split('.')[-1].replace('Entity', '')]. *)
Definition kind_of (e : Entity) : string :=
  replace "Entity" EmptyString (last_item (split "."%char (e_entityType e))).

Definition lockable (e : Entity) : bool := str_in (kind_of e) ["Folder"; "File"].

Definition _load_entity (entityId operationMsg : string) : M bool :=
  print "Loading Entity..." ;;;
  e <- remote (CallGet entityId) (fun w => (get w entityId, w)) ;;
  s <- get_self ;;
  set_self {| _user_ownerId := _user_ownerId s; _project := _project s;
              _entity := Some e; _table := _table s |} ;;;
  let type := kind_of e in
  (if str_in type ["Folder"; "File"] then
     print "Loading Project..." ;;;
     p <- _load_project_for recursion_limit e ;;
     s <- get_self ;;
     set_self {| _user_ownerId := _user_ownerId s; _project := Some p;
                 _entity := _entity s; _table := _table s |} ;;;
     print (operationMsg ++ " " ++ type ++ " " ++ e_name e ++ " (" ++ e_id e
            ++ ") from Project " ++ e_name p ++ " (" ++ e_id p ++ ")") ;;;
     _ensure_access_log p
   else
     print ("Found " ++ type ++ " " ++ e_name e ++ " (" ++ e_id e ++ ")") ;;;
     print "Only Folders or Files can be checked in/out. Aborting." ;;;
     s <- get_self ;;
     set_self {| _user_ownerId := _user_ownerId s; _project := None;
                 _entity := None; _table := _table s |}) ;;;
  s <- get_self ;;
  ret (match _project s with Some _ => true | None => false end).

(** *** Finding the open row *)

(** The [for row in log:] loop of [_find_checked_out_row]. *)
Fixpoint find_loop (by_user : bool) (ownerId : string) (entity : option Entity)
         (user_col entity_col checked_in_col : option nat)
         (rows : list (list value)) : outcome (option (list value)) :=
  match rows with
  | [] => Return None
  | row :: rest =>
      match getitem row user_col with
      | Raise e => Raise e
      | Return user_id =>
          match getitem row entity_col with
          | Raise e => Raise e
          | Return entity_id =>
              match getitem row checked_in_col with
              | Raise e => Raise e
              | Return checked_in =>
                  if (negb by_user || (by_user && eqb user_id (VStr ownerId)))%bool
                  then
                    match entity with
                    | None => Raise AttributeError
                    | Some ent =>
                        if (eqb entity_id (VStr (e_id ent)) && eqb checked_in VNone)%bool
                        then Return (Some row)
                        else find_loop by_user ownerId entity
                                       user_col entity_col checked_in_col rest
                    end
                  else find_loop by_user ownerId entity
                                 user_col entity_col checked_in_col rest
              end
          end
      end
  end.

Definition _find_checked_out_row (by_user : bool)
  : M (option (list value) * nat * list string) :=
  log <- _load_syt_log asc ;;
  let user_col := _get_table_column_index (q_headers log) SYT_COL_USER in
  let entity_col := _get_table_column_index (q_headers log) SYT_COL_ENTITY in
  let checked_in_col := _get_table_column_index (q_headers log) SYT_COL_CHECKED_IN in
  s <- get_self ;;
  checked_out_row <- lift (find_loop by_user (_user_ownerId s) (_entity s)
                                     user_col entity_col checked_in_col (q_rows log)) ;;
  ret (checked_out_row, q_etag log, q_headers log).

(** *** The three commands *)

Definition checkout (entityId : string) : M unit :=
  ok <- _load_entity entityId "Checkout out" ;;
  if negb ok then ret tt
  else
    found <- _find_checked_out_row false ;;
    let '(row, _, _) := found in
    match row with
    | None =>
        s <- get_self ;;
        c <- (fun st => (Return (cls st), st)) ;;
        entity <- attr (_entity s) ;;
        let new_row := [[VStr (_user_ownerId s); VStr (e_id entity);
                         VInt (_get_synapse_timestamp c None); VNone; VNone]] in
        t <- attr (_table s) ;;
        let req := {| r_table := t; r_rows := new_row;
                      r_etag := None; r_headers := None |} in
        remote (CallStoreTable req) (fun w => store_table w req) ;;;
        set_table_attr (Some t) ;;;
        print "Entity successfully checked out."
    | Some _ => print "Entity is already checked out."
    end.

Definition checkin (entityId : string) (message : value) (force : value) : M unit :=
  ok <- _load_entity entityId "Checking in" ;;
  if negb ok then ret tt
  else
    found <- _find_checked_out_row true ;;
    let '(row, etag, headers) := found in
    match row with
    | None => print "Entity is not currently checked out."
    | Some row =>
        print "Updating table..." ;;;
        let checked_in_col := _get_table_column_index headers SYT_COL_CHECKED_IN in
        let message_col := _get_table_column_index headers SYT_COL_MESSAGE in
        c <- (fun st => (Return (cls st), st)) ;;
        row <- lift (setitem row checked_in_col
                             (VInt (_get_synapse_timestamp c None))) ;;
        row <- lift (setitem row message_col message) ;;
        s <- get_self ;;
        t <- attr (_table s) ;;
        let req := {| r_table := t; r_rows := [row];
                      r_etag := Some etag; r_headers := Some headers |} in
        remote (CallStoreTable req) (fun w => store_table w req) ;;;
        set_table_attr (Some t) ;;;
        print "Entity successfully checked in."
    end.

(** The six lines printed for one row of the log. *)
Definition block (user_col entity_col checked_in_col checked_out_col message_col
                  : option nat) (row : list value) : M unit :=
  print (repeat_char "-"%char 80) ;;;
  v <- lift (getitem row user_col) ;;
  print ("User: " ++ str v) ;;;
  v <- lift (getitem row entity_col) ;;
  print ("Entity Out: " ++ str v) ;;;
  v <- lift (getitem row checked_out_col) ;;
  print ("Checked Out: " ++ str v) ;;;
  v <- lift (getitem row checked_in_col) ;;
  print ("Checked In: " ++ str v) ;;;
  v <- lift (getitem row message_col) ;;
  print ("Message: " ++ str v).

(** The [for row in log:] loop of [log]. *)
Fixpoint log_loop (show_all : bool)
         (user_col entity_col checked_in_col checked_out_col message_col : option nat)
         (rows : list (list value)) : M unit :=
  match rows with
  | [] => ret tt
  | row :: rest =>
      skip <- (if negb show_all
               then
                 v <- lift (getitem row entity_col) ;;
                 s <- get_self ;;
                 entity <- attr (_entity s) ;;
                 ret (negb (eqb v (VStr (e_id entity))))
               else ret false) ;;
      (if skip : bool then ret tt
       else block user_col entity_col checked_in_col checked_out_col message_col row) ;;;
      log_loop show_all user_col entity_col checked_in_col checked_out_col
               message_col rest
  end.

Definition log (entityId : string) (show_all : bool) : M unit :=
  ok <- _load_entity entityId "Show Log" ;;
  if negb ok then ret tt
  else
    log <- _load_syt_log desc ;;
    let user_col := _get_table_column_index (q_headers log) SYT_COL_USER in
    let entity_col := _get_table_column_index (q_headers log) SYT_COL_ENTITY in
    let checked_in_col := _get_table_column_index (q_headers log) SYT_COL_CHECKED_IN in
    let checked_out_col := _get_table_column_index (q_headers log) SYT_COL_CHECKED_OUT in
    let message_col := _get_table_column_index (q_headers log) SYT_COL_MESSAGE in
    log_loop show_all user_col entity_col checked_in_col checked_out_col message_col
             (q_rows log).

(** *** One run of the program

    [main] builds one [Syt] object and runs one command.  A process
    starts by executing the class statement, then logs in; [ownerId] is
    the profile the login yields. *)

Inductive command : Type := cmd_checkout | cmd_checkin | cmd_log.

Record Args : Type := mkArgs {
  a_command : command;
  a_entity_id : string;
  a_message : value;
  a_all : bool;
  a_force : value
}.

Definition main (args : Args) : M unit :=
  match a_command args with
  | cmd_checkin => checkin (a_entity_id args) (a_message args) (a_force args)
  | cmd_checkout => checkout (a_entity_id args)
  | cmd_log => log (a_entity_id args) (a_all args)
  end.

Definition start (ownerId : string) (w : World) (sched : list ExtEvent) : State :=
  {| self := init ownerId; cls := define_class w; world := w;
     schedule := sched; calls := []; stdout := [] |}.

(** The process does nothing for [us] microseconds (time passes between
    two method calls of one run). *)
Definition idle (us : Z) : M unit :=
  fun st =>
    (Return tt,
     {| self := self st; cls := cls st;
        world := {| w_entities := w_entities (world st);
                    w_tables := w_tables (world st);
                    w_clock := w_clock (world st) + us |};
        schedule := schedule st; calls := calls st; stdout := stdout st |}).

(** *** Logging in

    [synapse_login] reads two environment variables, the two constructor
    arguments (which [main] fills from [-u] and [-p]) and, if need be, the
    terminal.  [input] echoes what is typed, [getpass.getpass] does not.
    The progress line it prints first is left out. *)

Record Environ : Type := mkEnviron {
  SYNAPSE_USER : option string;
  SYNAPSE_PASSWORD : option string
}.

Inductive Prompt : Type :=
| Input (prompt : string)
| GetPass (prompt : string).

(** The lines still to be typed at the terminal, and the prompts shown. *)
Record Terminal : Type := mkTerminal {
  typed : list string;
  prompts : list Prompt
}.

Definition read_line (p : Prompt) (t : Terminal) : outcome value * Terminal :=
  match typed t with
  | [] => (Raise EOFError, {| typed := []; prompts := prompts t ++ [p] |})
  | l :: rest => (Return (VStr l), {| typed := rest; prompts := prompts t ++ [p] |})
  end.

(** The credentials handed to [login(syn_user, syn_pass, silent=True)]. *)
Definition synapse_login (env : Environ) (_username _password : option string)
           (t : Terminal) : outcome (value * value) * Terminal :=
  let syn_user := or_ (of_option (SYNAPSE_USER env)) (of_option _username) in
  let syn_pass := or_ (of_option (SYNAPSE_PASSWORD env)) (of_option _password) in
  let '(u, t) := if eqb syn_user VNone
                 then read_line (Input "Synapse username: ") t
                 else (Return syn_user, t) in
  match u with
  | Raise e => (Raise e, t)
  | Return syn_user =>
      let '(p, t) := if eqb syn_pass VNone
                     then read_line (GetPass "Synapse password: ") t
                     else (Return syn_pass, t) in
      match p with
      | Raise e => (Raise e, t)
      | Return syn_pass => (Return (syn_user, syn_pass), t)
      end
  end.

End Syt.

Import Syt.
Local Open Scope syt_scope.

(** ** Vocabulary of the statements *)

(** The world a call made in state [st] is answered in. *)
Definition seen (st : State) : World :=
  match schedule st with
  | [] => world st
  | ev :: _ => happen ev (world st)
  end.

(** The ancestor walk of [_load_project_for], read off the service. *)
Fixpoint project_of (depth : nat) (w : World) (child : Entity) : outcome Entity :=
  match depth with
  | O => Raise RecursionError
  | S k =>
      match get w (e_parentId child) with
      | Return parent =>
          if negb (is_Project parent) then project_of k w parent else Return parent
      | Raise e => Raise e
      end
  end.

(** The table [_ensure_access_log] leaves in [self._table], and the
    service after it: the first table of the project with the reserved
    name, else the table the object already holds, else a new one. *)
Definition ensure_table (w : World) (p : Entity) (cur : option tid) : tid * World :=
  match find_named SYT_TABLE_NAME (getChildren w p) with
  | Some i => (i, w)
  | None =>
      match cur with
      | Some t => (t, w)
      | None => store_schema w SYT_TABLE_NAME SYT_COLUMNS p
      end
  end.

Definition is_row_write (c : Call) : bool :=
  match c with
  | CallStoreTable _ => true
  | _ => false
  end.

Definition is_query (c : Call) : bool :=
  match c with
  | CallTableQuery _ _ _ => true
  | _ => false
  end.

Definition is_provision (c : Call) : bool :=
  match c with
  | CallStoreSchema _ _ _ => true
  | _ => false
  end.

Definition count_calls (f : Call -> bool) (cs : list Call) : nat :=
  List.length (filter f cs).

(** A log table as [_ensure_access_log] creates it and the service keeps
    it: the five columns, one cell per column in every row. *)
Definition wf_log (tb : TableData) : Prop :=
  t_columns tb = SYT_COLUMNS /\
  Forall (fun r => List.length (snd r) = 5%nat) (t_rows tb).

(** The cells of a lock record: user, entity, checked_out, checked_in,
    message. *)
Definition rec_user (cells : list value) : value := nth 0 cells VNone.
Definition rec_entity (cells : list value) : value := nth 1 cells VNone.
Definition rec_checked_out (cells : list value) : value := nth 2 cells VNone.
Definition rec_checked_in (cells : list value) : value := nth 3 cells VNone.
Definition rec_message (cells : list value) : value := nth 4 cells VNone.

(** An open lock on entity [eid]; with [by_user], one held by [owner]. *)
Definition open_lock (by_user : bool) (owner eid : string) (cells : list value) : bool :=
  ((negb by_user || eqb (rec_user cells) (VStr owner))
   && eqb (rec_entity cells) (VStr eid)
   && eqb (rec_checked_in cells) VNone)%bool.

(** The same on a row of a query result, whose first two cells are the
    row id and the row version. *)
Definition row_cells (row : list value) : list value := skipn 2 row.

Definition row_open (by_user : bool) (owner eid : string) (row : list value) : bool :=
  open_lock by_user owner eid (row_cells row).

(** The rows a query on [tb] yields, in ascending or descending
    checked-out order. *)
Definition log_rows (d : direction) (tb : TableData) : list (list value) :=
  sort_by (row_leb d 4) (with_row_ids 0 (t_rows tb)).

Definition checked_out_le (a b : list value) : Prop :=
  key_leb (cell_key 4 a) (cell_key 4 b) = true.

(** The six lines [log] prints for a row. *)
Definition block_lines (row : list value) : list string :=
  [ repeat_char "-"%char 80;
    ("User: " ++ str (rec_user (row_cells row)))%string;
    ("Entity Out: " ++ str (rec_entity (row_cells row)))%string;
    ("Checked Out: " ++ str (rec_checked_out (row_cells row)))%string;
    ("Checked In: " ++ str (rec_checked_in (row_cells row)))%string;
    ("Message: " ++ str (rec_message (row_cells row)))%string ].

(** The rows [log] shows. *)
Definition shown (show_all : bool) (eid : string) (row : list value) : bool :=
  (show_all || eqb (rec_entity (row_cells row)) (VStr eid))%bool.

(** The log table of state [st], once [self._table] is bound. *)
Definition log_table (st : State) : option TableData :=
  match _table (self st) with
  | Some t => nth_error (w_tables (world st)) t
  | None => None
  end.

(** A row of a query result on a log table: row id, row version and the
    five cells. *)
Definition shape7 (r : list value) : Prop :=
  exists rid ver u e co ci m, r = [VInt rid; VInt ver; u; e; co; ci; m].

(** The calls [_load_entity] makes: neither a query nor a row write. *)
Definition load_call (c : Call) : bool := (negb (is_row_write c) && negb (is_query c))%bool.

(** The row [checkout] builds. *)
Definition checkout_row (c : Class) (owner eid : string) : list value :=
  [VStr owner; VStr eid; VInt (_get_synapse_timestamp c None); VNone; VNone].

(** The cells [checkin] sends back for the row it found. *)
Definition checked_in_cells (c : Class) (message : value) (cells : list value) : list value :=
  [rec_user cells; rec_entity cells; rec_checked_out cells;
   VInt (_get_synapse_timestamp c None); message].

(** A table after one row was appended, and after row [n] was rewritten. *)
Definition appended (tb : TableData) (cells : list value) : TableData :=
  {| t_name := t_name tb; t_parentId := t_parentId tb; t_columns := t_columns tb;
     t_rows := t_rows tb ++ [(Z.of_nat (S (t_etag tb)), cells)];
     t_etag := S (t_etag tb) |}.

Definition rewritten (tb : TableData) (n : nat) (cells : list value) : TableData :=
  {| t_name := t_name tb; t_parentId := t_parentId tb; t_columns := t_columns tb;
     t_rows := replace_nth n (Z.of_nat (S (t_etag tb)), cells) (t_rows tb);
     t_etag := S (t_etag tb) |}.

Definition query_call (t : tid) (d : direction) : Call :=
  CallTableQuery t SYT_COL_CHECKED_OUT d.

(** An insert carries no token and no headers; an update carries the
    token and the headers of the query it follows. *)
Definition insert_req (t : tid) (cells : list value) : TableReq :=
  {| r_table := t; r_rows := [cells]; r_etag := None; r_headers := None |}.

Definition update_req (t : tid) (tb : TableData) (row : list value) : TableReq :=
  {| r_table := t; r_rows := [row]; r_etag := Some (t_etag tb);
     r_headers := Some (query_headers tb) |}.

(** [tame q s m]: a run of [m] keeps the class, and adds at most [q]
    queries and [s] row writes to the calls made. *)
Definition tame {A : Type} (q s : nat) (m : M A) : Prop :=
  forall st,
    cls (snd (m st)) = cls st /\
    exists cs, calls (snd (m st)) = calls st ++ cs /\
               (count_calls is_query cs <= q)%nat /\
               (count_calls is_row_write cs <= s)%nat.

(** A second read-resolve-write cycle would start with a second query. *)
Definition retried (cs : list Call) : Prop := (2 <= count_calls is_query cs)%nat.

(** An environment variable that is set and not empty; an option that was
    not given. *)
Definition env_set (o : option string) : bool :=
  match o with
  | Some s => negb (String.eqb s EmptyString)
  | None => false
  end.

Definition absent (o : option string) : bool :=
  match o with
  | Some _ => false
  | None => true
  end.

(** The credential by the precedence the code implements: the environment
    variable when set and not empty, else the option, else the line typed. *)
Definition credential (env opt : option string) (line : string) : value :=
  if env_set env then of_option env
  else match opt with
       | Some s => VStr s
       | None => VStr line
       end.

Definition prompted (env opt : option string) : bool := (negb (env_set env) && absent opt)%bool.

(** ** A small project to run the commands on *)

Module Demo.

Definition project : Entity := mkEntity "syn1" "Lab" Project_type "syn0".
Definition folder : Entity :=
  mkEntity "syn2" "docs" "org.sagebionetworks.repo.model.Folder" "syn1".
Definition file : Entity :=
  mkEntity "syn3" "plan.txt" "org.sagebionetworks.repo.model.FileEntity" "syn2".
Definition sheet : Entity :=
  mkEntity "syn4" "notes" "org.sagebionetworks.repo.model.table.TableEntity" "syn1".

Definition alice : string := "3301".
Definition bob : string := "3302".

(** A project without a log table, at 2020-09-13 12:26:40.123456 UTC. *)
Definition w0 : World := mkWorld [project; folder; file; sheet] [] 1600000000123456.

Definition later (us : Z) (w : World) : World :=
  mkWorld (w_entities w) (w_tables w) (w_clock w + us).

(** The service an hour after alice checked the file out. *)
Definition w1 : World := later 3600000000 (world (snd (checkout "syn3" (start alice w0 [])))).

(** The log table of [w1]. *)
Definition tb1 : TableData :=
  {| t_name := "syt_log"; t_parentId := "syn1"; t_columns := SYT_COLUMNS;
     t_rows := [(1%Z, [VStr alice; VStr "syn3"; VInt 1600000000000; VNone; VNone])];
     t_etag := 1 |}.

(** Bob checks the folder out just before alice's check-in is written. *)
Definition bob_insert : TableReq :=
  insert_req 0 [VStr bob; VStr "syn2"; VInt 1600003600000; VNone; VNone].

Definition conflict_schedule : list ExtEvent :=
  [Quiet; Quiet; Quiet; Quiet; Quiet; Quiet; OtherStore bob_insert].

(** A log with history: the file was checked out and in by alice, is
    checked out again by alice and, after a race, by bob as well; the
    folder is checked out by alice. *)
Definition tb_multi : TableData :=
  {| t_name := "syt_log"; t_parentId := "syn1"; t_columns := SYT_COLUMNS;
     t_rows := [(4%Z, [VStr bob; VStr "syn3"; VInt 300000; VNone; VNone]);
                (2%Z, [VStr alice; VStr "syn3"; VInt 100000; VInt 150000; VStr "v1"]);
                (3%Z, [VStr alice; VStr "syn3"; VInt 200000; VNone; VNone]);
                (5%Z, [VStr alice; VStr "syn2"; VInt 50000; VNone; VNone])];
     t_etag := 5 |}.

Definition w_multi : World :=
  mkWorld [project; folder; file; sheet] [tb_multi] 1600000000123456.

(** The object once [_load_entity] has bound the file and the table. *)
Definition st_multi : State :=
  mkState (mkSelf bob (Some project) (Some file) (Some 0%nat))
          (define_class w_multi) w_multi [] [] [].

(** The log table as [_ensure_access_log] creates it. *)
Definition tb_empty : TableData :=
  {| t_name := "syt_log"; t_parentId := "syn1"; t_columns := SYT_COLUMNS;
     t_rows := []; t_etag := 0 |}.

End Demo.

(** ** Vocabulary of the further properties *)

(** [c in s]. *)
Fixpoint has_char (c : ascii) (s : string) : bool :=
  match s with
  | EmptyString => false
  | String x rest => (Ascii.eqb x c || has_char c rest)%bool
  end.

(** [p] is the nearest ancestor of [child] that is a Project, [n] levels
    up, none of the ancestors below it being one. *)
Inductive nearest_project (w : World) : Entity -> nat -> Entity -> Prop :=
| np_parent child parent :
    get w (e_parentId child) = Return parent ->
    is_Project parent = true ->
    nearest_project w child 1 parent
| np_above child parent n p :
    get w (e_parentId child) = Return parent ->
    is_Project parent = false ->
    nearest_project w parent n p ->
    nearest_project w child (S n) p.

(** The open locks on entity [x] in a log table, whoever holds them. *)
Definition count_open (x : string) (tb : TableData) : nat :=
  List.length (filter (fun r => open_lock false EmptyString x (snd r)) (t_rows tb)).

(** No entity has two open locks. *)
Definition single_lock (tb : TableData) : Prop := forall x, (count_open x tb <= 1)%nat.

(** A second project, without a log table, beside the one of [Demo]. *)
Module Annex.

Definition project : Entity := mkEntity "syn10" "Annex" Project_type "syn0".
Definition file : Entity :=
  mkEntity "syn11" "draft.txt" "org.sagebionetworks.repo.model.FileEntity" "syn10".

(** Both projects; only the first has a log table. *)
Definition w : World :=
  mkWorld [Demo.project; Demo.folder; Demo.file; project; file] [Demo.tb_multi]
          1600000000123456.

(** An entity that is its own parent: no Project above it. *)
Definition orphan : Entity :=
  mkEntity "syn20" "loop" "org.sagebionetworks.repo.model.Folder" "syn20".

Definition w_orphan : World := mkWorld [orphan] [] 1600000000123456.

(** A table with the reserved name but without the checked_in column. *)
Definition tb_short : TableData :=
  {| t_name := "syt_log"; t_parentId := "syn1";
     t_columns := ["user"; "entity"; "checked_out"];
     t_rows := [(1%Z, [VStr Demo.alice; VStr "syn3"; VInt 100000])];
     t_etag := 1 |}.

Definition st_short : State :=
  mkState (mkSelf Demo.bob (Some Demo.project) (Some Demo.file) (Some 0%nat))
          (mkClass 1600000000123456)
          (mkWorld [Demo.project; Demo.folder; Demo.file] [tb_short] 1600000000123456)
          [] [] [].

(** Bob locks the file between alice's query and her insert. *)
Definition bob_lock : TableReq :=
  insert_req 0 [VStr Demo.bob; VStr "syn3"; VInt 1600000000000; VNone; VNone].

Definition race_schedule : list ExtEvent :=
  [Quiet; Quiet; Quiet; Quiet; Quiet; Quiet; OtherStore bob_lock].

Definition tb_bob : TableData :=
  {| t_name := "syt_log"; t_parentId := "syn1"; t_columns := SYT_COLUMNS;
     t_rows := [(1%Z, [VStr Demo.bob; VStr "syn3"; VInt 1600000000000; VNone; VNone])];
     t_etag := 1 |}.

End Annex.

(** ** Proof steps shared by the runs *)

Ltac fields :=
  cbn [schedule world self cls calls stdout tl fst snd
       _table _user_ownerId _project _entity q_rows q_headers q_etag
       r_table r_rows r_etag r_headers].

Ltac run :=
  repeat (progress (unfold bind, ret, raise, lift, print, get_self, set_self, attr,
                    remote, set_table_attr; fields)).

(** ** Sorting *)

Section Sorting.

Variable A : Type.
Variable leb : A -> A -> bool.
Hypothesis leb_total : forall x y, leb x y = false -> leb y x = true.
Hypothesis leb_trans : forall x y z, leb x y = true -> leb y z = true -> leb x z = true.

Lemma insert_by_perm (x : A) (l : list A) : Permutation (x :: l) (insert_by leb x l).
Proof.
  induction l as [|y l IH]; simpl; [reflexivity|].
  destruct (leb x y); [reflexivity|].
  rewrite perm_swap. now constructor.
Qed.

Lemma sort_by_perm (l : list A) : Permutation l (sort_by leb l).
Proof.
  induction l as [|x l IH]; simpl; [constructor|].
  etransitivity; [|apply insert_by_perm]. now constructor.
Qed.

Lemma insert_by_sorted (x : A) (l : list A) :
  StronglySorted (fun a b => leb a b = true) l ->
  StronglySorted (fun a b => leb a b = true) (insert_by leb x l).
Proof.
  induction 1 as [|y l Hs IH Hall]; simpl.
  - repeat constructor.
  - destruct (leb x y) eqn:E.
    + constructor; [now constructor|].
      constructor; [exact E|].
      eapply Forall_impl; [|exact Hall]. intros z Hz. eauto.
    + constructor; [exact IH|].
      eapply Permutation_Forall; [apply insert_by_perm|].
      constructor; auto.
Qed.

Lemma sort_by_sorted (l : list A) :
  StronglySorted (fun a b => leb a b = true) (sort_by leb l).
Proof.
  induction l; simpl; [constructor | now apply insert_by_sorted].
Qed.

End Sorting.

Lemma key_leb_total x y : key_leb x y = false -> key_leb y x = true.
Proof.
  destruct x, y; simpl; auto; try discriminate.
  intros H. apply Z.leb_gt in H. apply Z.leb_le. lia.
Qed.

Lemma key_leb_trans x y z : key_leb x y = true -> key_leb y z = true -> key_leb x z = true.
Proof.
  destruct x, y, z; simpl; auto; try discriminate.
  rewrite !Z.leb_le. lia.
Qed.

Lemma row_leb_total d c x y : row_leb d c x y = false -> row_leb d c y x = true.
Proof. destruct d; apply key_leb_total. Qed.

Lemma row_leb_trans d c x y z :
  row_leb d c x y = true -> row_leb d c y z = true -> row_leb d c x z = true.
Proof. destruct d; simpl; intros; eapply key_leb_trans; eauto. Qed.

Lemma log_rows_perm d tb : Permutation (with_row_ids 0 (t_rows tb)) (log_rows d tb).
Proof. apply sort_by_perm. Qed.

Lemma log_rows_sorted d tb :
  StronglySorted (fun a b => row_leb d 4 a b = true) (log_rows d tb).
Proof. apply sort_by_sorted; [apply row_leb_total | apply row_leb_trans]. Qed.

(** ** Rows of a query result *)

Lemma with_row_ids_In i rows r :
  In r (with_row_ids i rows) ->
  exists n ver cells, r = VInt (Z.of_nat n) :: VInt ver :: cells /\
                      nth_error rows (n - i) = Some (ver, cells) /\ (i <= n)%nat.
Proof.
  revert i; induction rows as [|[ver cells] rows IH]; simpl; intros i H; [contradiction|].
  destruct H as [<-|H].
  - exists i, ver, cells. rewrite Nat.sub_diag. auto.
  - destruct (IH _ H) as (n & v & c & -> & Hn & Hle).
    exists n, v, c. split; [reflexivity|]. split; [|lia].
    replace (n - i)%nat with (S (n - S i)) by lia. exact Hn.
Qed.

Lemma with_row_ids_cells i rows r :
  In r (with_row_ids i rows) ->
  exists rid ver cells, r = VInt rid :: VInt ver :: cells /\ In (ver, cells) rows.
Proof.
  intros H. destruct (with_row_ids_In _ _ _ H) as (n & v & c & -> & Hn & _).
  exists (Z.of_nat n), v, c. split; [reflexivity|]. eapply nth_error_In; eauto.
Qed.

Lemma In_with_row_ids rows : forall i ver cells,
  In (ver, cells) rows -> exists rid, In (VInt rid :: VInt ver :: cells) (with_row_ids i rows).
Proof.
  induction rows as [|[v c] rows IH]; simpl; intros i ver cells H; [contradiction|].
  destruct H as [H|H].
  - inversion H; subst. eexists; left; reflexivity.
  - destruct (IH (S i) _ _ H) as [rid Hr]. exists rid. now right.
Qed.

Lemma length5 (cells : list value) :
  List.length cells = 5%nat -> exists u e co ci m, cells = [u; e; co; ci; m].
Proof.
  destruct cells as [|u [|e [|co [|ci [|m [|x cells]]]]]]; simpl; try discriminate.
  intros _. now exists u, e, co, ci, m.
Qed.

Lemma wf_with_row_ids tb i :
  wf_log tb -> Forall shape7 (with_row_ids i (t_rows tb)).
Proof.
  intros [_ H]. apply Forall_forall. intros r Hr.
  destruct (with_row_ids_cells _ _ _ Hr) as (rid & ver & cells & -> & Hin).
  rewrite Forall_forall in H. specialize (H _ Hin). simpl in H.
  destruct (length5 _ H) as (u & e & co & ci & m & ->).
  now exists rid, ver, u, e, co, ci, m.
Qed.

Lemma wf_log_rows tb d : wf_log tb -> Forall shape7 (log_rows d tb).
Proof.
  intros H. eapply Permutation_Forall; [apply log_rows_perm|]. now apply wf_with_row_ids.
Qed.

Lemma find_loop_find by_user owner ent rows :
  Forall shape7 rows ->
  find_loop by_user owner (Some ent) (Some 2%nat) (Some 3%nat) (Some 5%nat) rows
  = Return (find (row_open by_user owner (e_id ent)) rows).
Proof.
  induction 1 as [|r rows Hr _ IH]; [reflexivity|].
  destruct Hr as (rid & ver & u & e & co & ci & m & ->).
  cbn [find_loop getitem nth_error find].
  unfold row_open, open_lock, row_cells, rec_user, rec_entity, rec_checked_in.
  cbn [skipn nth].
  rewrite IH.
  destruct by_user; cbn [negb orb andb];
    repeat match goal with |- context [if ?b then _ else _] => destruct b; cbn [andb] end;
    reflexivity.
Qed.

Lemma find_split {A} (f : A -> bool) (l : list A) (x : A) :
  find f l = Some x ->
  exists pre post, l = pre ++ x :: post /\ f x = true /\ Forall (fun y => f y = false) pre.
Proof.
  induction l as [|y l IH]; simpl; [discriminate|].
  destruct (f y) eqn:E.
  - intros [= ->]. exists [], l. auto.
  - intros H. destruct (IH H) as (pre & post & -> & Hx & Hpre).
    exists (y :: pre), post. auto.
Qed.

Lemma find_none_all {A} (f : A -> bool) (l : list A) :
  find f l = None -> Forall (fun y => f y = false) l.
Proof.
  intros H. apply Forall_forall. intros y Hy. eapply find_none; eauto.
Qed.

Lemma sorted_first_least {A} (R : A -> A -> Prop) (f : A -> bool) pre x post :
  (forall a, R a a) ->
  StronglySorted R (pre ++ x :: post) ->
  Forall (fun y => f y = false) pre ->
  forall y, In y (pre ++ x :: post) -> f y = true -> R x y.
Proof.
  intros Hrefl Hs Hpre y Hy Hf.
  apply in_app_or in Hy. destruct Hy as [Hy|[<-|Hy]].
  - rewrite Forall_forall in Hpre. rewrite (Hpre _ Hy) in Hf. discriminate.
  - apply Hrefl.
  - clear Hpre. induction pre as [|p pre IH]; simpl in Hs.
    + inversion Hs; subst. rewrite Forall_forall in H2. auto.
    + inversion Hs; subst. auto.
Qed.

(** ** Children and the reserved table *)

Lemma children_from_names pid ts : forall i n t,
  In (n, t) (children_from pid i ts) ->
  exists tb, nth_error ts (t - i) = Some tb /\ (i <= t)%nat /\
             t_name tb = n /\ t_parentId tb = pid.
Proof.
  induction ts as [|tb ts IH]; simpl; intros i n t H; [contradiction|].
  destruct (String.eqb_spec (t_parentId tb) pid) as [E|E].
  - destruct H as [H|H].
    + inversion H; subst. exists tb. rewrite Nat.sub_diag. auto.
    + destruct (IH _ _ _ H) as (tb' & Hn & Hle & Hname & Hp).
      exists tb'. replace (t - i)%nat with (S (t - S i)) by lia. repeat split; auto; lia.
  - destruct (IH _ _ _ H) as (tb' & Hn & Hle & Hname & Hp).
    exists tb'. replace (t - i)%nat with (S (t - S i)) by lia. repeat split; auto; lia.
Qed.

Lemma find_named_In name l t : find_named name l = Some t -> In (name, t) l.
Proof.
  induction l as [|[n i] l IH]; simpl; [discriminate|].
  destruct (String.eqb_spec n name) as [->|E].
  - intros [= ->]. now left.
  - intros H. right. auto.
Qed.

Lemma find_named_table w p t :
  find_named SYT_TABLE_NAME (getChildren w p) = Some t ->
  exists tb, nth_error (w_tables w) t = Some tb /\
             t_name tb = SYT_TABLE_NAME /\ t_parentId tb = e_id p.
Proof.
  intros H. apply find_named_In in H. apply children_from_names in H.
  destruct H as (tb & Hn & _ & Hname & Hp). rewrite Nat.sub_0_r in Hn. eauto.
Qed.

Lemma children_from_app pid ts1 ts2 : forall i,
  children_from pid i (ts1 ++ ts2) =
  children_from pid i ts1 ++ children_from pid (i + List.length ts1) ts2.
Proof.
  induction ts1 as [|tb ts1 IH]; simpl; intros i.
  - now rewrite Nat.add_0_r.
  - rewrite IH. replace (S i + List.length ts1)%nat with (i + S (List.length ts1))%nat by lia.
    destruct (String.eqb (t_parentId tb) pid); reflexivity.
Qed.

Lemma find_named_app name l1 l2 :
  find_named name (l1 ++ l2) =
  match find_named name l1 with Some t => Some t | None => find_named name l2 end.
Proof.
  induction l1 as [|[n i] l1 IH]; simpl; [reflexivity|].
  destruct (String.eqb n name); auto.
Qed.

Lemma ensure_table_created w p :
  find_named SYT_TABLE_NAME (getChildren w p) = None ->
  find_named SYT_TABLE_NAME (getChildren (snd (store_schema w SYT_TABLE_NAME SYT_COLUMNS p)) p)
  = Some (List.length (w_tables w)).
Proof.
  intros H. unfold getChildren, store_schema in *. simpl.
  rewrite children_from_app, find_named_app, H. simpl.
  now rewrite String.eqb_refl.
Qed.

Lemma replace_nth_nth_error {A} (l : list A) : forall n x y,
  nth_error l n = Some y -> nth_error (replace_nth n x l) n = Some x.
Proof.
  induction l; intros [|n] x y; simpl; try discriminate; eauto.
Qed.

Lemma replace_nth_other {A} (l : list A) : forall n m x,
  n <> m -> nth_error (replace_nth n x l) m = nth_error l m.
Proof.
  induction l; intros [|n] [|m] x H; simpl; auto; congruence.
Qed.

Lemma replace_nth_length {A} (l : list A) :
  forall n x, List.length (replace_nth n x l) = List.length l.
Proof. induction l; intros [|n] x; simpl; auto. Qed.

Lemma children_from_replace pid ts : forall i n tb tb',
  nth_error ts n = Some tb -> t_name tb' = t_name tb -> t_parentId tb' = t_parentId tb ->
  children_from pid i (replace_nth n tb' ts) = children_from pid i ts.
Proof.
  induction ts as [|a ts IH]; intros i [|n] tb tb'; simpl; try discriminate.
  - intros [= ->] Hn Hp. now rewrite Hn, Hp.
  - intros H Hn Hp. rewrite (IH _ _ _ _ H Hn Hp). reflexivity.
Qed.

(** ** Runs without outside events *)

Lemma bind_Return {A B} (m : M A) (k : A -> M B) st a st' :
  m st = (Return a, st') -> bind m k st = k a st'.
Proof. unfold bind. now intros ->. Qed.

Lemma bind_Raise {A B} (m : M A) (k : A -> M B) st e st' :
  m st = (Raise e, st') -> bind m k st = (Raise e, st').
Proof. unfold bind. now intros ->. Qed.

Lemma load_project_quiet depth : forall child s c w cs out,
  exists cs',
    _load_project_for depth child (mkState s c w [] cs out)
    = (project_of depth w child, mkState s c w [] (cs ++ cs') out)
    /\ Forall (fun c => load_call c = true) cs'.
Proof.
  induction depth as [|k IH]; intros child s c w cs out.
  - exists []. now rewrite app_nil_r.
  - cbn [_load_project_for project_of]. unfold bind at 1. unfold remote at 1.
    cbn [schedule world self cls calls stdout tl].
    destruct (get w (e_parentId child)) as [parent|e].
    + destruct (negb (is_Project parent)).
      * destruct (IH parent s c w (cs ++ [CallGet (e_parentId child)]) out) as (cs' & -> & Hcs).
        exists (CallGet (e_parentId child) :: cs'). rewrite <- app_assoc. split; [reflexivity|].
        constructor; auto.
      * eexists. split; [reflexivity|]. repeat constructor.
    + eexists. split; [reflexivity|]. repeat constructor.
Qed.

Lemma ensure_access_log_quiet p o pr en cur c w cs out :
  exists cs' out',
    _ensure_access_log p (mkState (mkSelf o pr en cur) c w [] cs out)
    = (Return tt,
       mkState (mkSelf o pr en (Some (fst (ensure_table w p cur)))) c
               (snd (ensure_table w p cur)) [] (cs ++ cs') (out ++ out'))
    /\ Forall (fun c => load_call c = true) cs'.
Proof.
  unfold _ensure_access_log, ensure_table.
  unfold bind, print, remote, get_self, set_table_attr, set_self, ret.
  cbn [schedule world self cls calls stdout tl fst snd _table _user_ownerId _project _entity].
  destruct (find_named SYT_TABLE_NAME (getChildren w p)) as [i|] eqn:E.
  - destruct (find_named_table _ _ _ E) as (tb & Hn & _).
    unfold bind, print, remote, get_self, set_table_attr, set_self, ret, get_table.
    cbn [schedule world self cls calls stdout tl fst snd _table _user_ownerId _project _entity].
    rewrite Hn.
    cbn [schedule world self cls calls stdout tl fst snd _table _user_ownerId _project _entity].
    eexists. eexists. rewrite <- ?app_assoc. split; [reflexivity|]. repeat constructor.
  - cbn [schedule world self cls calls stdout tl fst snd _table _user_ownerId _project _entity].
    destruct cur as [t|].
    + eexists. eexists. rewrite <- ?app_assoc. split; [reflexivity|]. repeat constructor.
    + unfold bind, print, remote, get_self, set_table_attr, set_self, ret, store_schema.
      cbn [schedule world self cls calls stdout tl fst snd _table _user_ownerId _project _entity].
      eexists. eexists. rewrite <- ?app_assoc. split; [reflexivity|]. repeat constructor.
Qed.

Lemma load_entity_quiet eid msg o pr en cur c w cs out e p :
  get w eid = Return e ->
  lockable e = true ->
  project_of recursion_limit w e = Return p ->
  exists cs' out',
    _load_entity eid msg (mkState (mkSelf o pr en cur) c w [] cs out)
    = (Return true,
       mkState (mkSelf o (Some p) (Some e) (Some (fst (ensure_table w p cur)))) c
               (snd (ensure_table w p cur)) [] (cs ++ cs') (out ++ out'))
    /\ Forall (fun c => load_call c = true) cs'.
Proof.
  intros Hget Hlock Hproj.
  unfold _load_entity. unfold lockable in Hlock.
  unfold bind at 1. unfold print at 1.
  cbn [schedule world self cls calls stdout tl fst snd _table _user_ownerId _project _entity].
  unfold bind at 1. unfold remote at 1.
  cbn [schedule world self cls calls stdout tl fst snd _table _user_ownerId _project _entity].
  rewrite Hget.
  unfold bind at 1. unfold get_self at 1.
  unfold bind at 1. unfold set_self at 1.
  rewrite Hlock.
  cbn [schedule world self cls calls stdout tl fst snd _table _user_ownerId _project _entity].
  unfold bind at 1. unfold bind at 1. unfold print at 1.
  cbn [schedule world self cls calls stdout tl fst snd _table _user_ownerId _project _entity].
  unfold bind at 1.
  match goal with |- context [_load_project_for _ _ (mkState ?s ?c ?w [] ?cs ?out)] =>
    destruct (load_project_quiet recursion_limit e s c w cs out) as (cs1 & -> & Hcs1) end.
  rewrite Hproj.
  unfold bind at 1. unfold get_self at 1.
  unfold bind at 1. unfold set_self at 1.
  cbn [schedule world self cls calls stdout tl fst snd _table _user_ownerId _project _entity].
  unfold bind at 1. unfold print at 1.
  cbn [schedule world self cls calls stdout tl fst snd _table _user_ownerId _project _entity].
  match goal with
  |- context [_ensure_access_log _ (mkState (mkSelf ?o ?pr ?en ?cur) ?c ?w [] ?cs ?out)] =>
    destruct (ensure_access_log_quiet p o pr en cur c w cs out) as (cs2 & out2 & -> & Hcs2) end.
  unfold bind, get_self, ret.
  cbn [schedule world self cls calls stdout tl fst snd _table _user_ownerId _project _entity].
  exists (CallGet eid :: cs1 ++ cs2). eexists. rewrite <- ?app_assoc. split; [reflexivity|].
  constructor; [reflexivity|]. apply Forall_app; auto.
Qed.

Lemma find_all_false {A} (f : A -> bool) (l : list A) :
  Forall (fun y => f y = false) l -> find f l = None.
Proof. induction 1 as [|y l Hy _ IH]; simpl; [reflexivity|]. now rewrite Hy. Qed.

Lemma find_none_log b o eid d tb :
  Forall (fun r => open_lock b o eid (snd r) = false) (t_rows tb) ->
  find (row_open b o eid) (log_rows d tb) = None.
Proof.
  intros H. apply find_all_false.
  eapply Permutation_Forall; [apply log_rows_perm|].
  apply Forall_forall. intros r Hr.
  destruct (with_row_ids_cells _ _ _ Hr) as (rid & ver & cells & -> & Hin).
  rewrite Forall_forall in H. exact (H _ Hin).
Qed.

Lemma find_some_log b o eid d tb row :
  find (row_open b o eid) (log_rows d tb) = Some row ->
  exists n ver cells,
    row = VInt (Z.of_nat n) :: VInt ver :: cells /\
    nth_error (t_rows tb) n = Some (ver, cells) /\
    open_lock b o eid cells = true.
Proof.
  intros H. apply find_some in H. destruct H as [Hin Hopen].
  apply (Permutation_in _ (Permutation_sym (log_rows_perm d tb))) in Hin.
  destruct (with_row_ids_In _ _ _ Hin) as (n & ver & cells & -> & Hn & _).
  rewrite Nat.sub_0_r in Hn. exists n, ver, cells. auto.
Qed.

Lemma get_id w eid e : get w eid = Return e -> e_id e = eid.
Proof.
  unfold get. destruct (find _ _) as [x|] eqn:E; [|discriminate].
  intros [= <-]. apply find_some in E. destruct E as [_ E].
  now apply String.eqb_eq.
Qed.

Lemma find_row_quiet by_user o pr ent t c w cs out tb :
  nth_error (w_tables w) t = Some tb ->
  wf_log tb ->
  _find_checked_out_row by_user (mkState (mkSelf o pr (Some ent) (Some t)) c w [] cs out)
  = (Return (find (row_open by_user o (e_id ent)) (log_rows asc tb),
             t_etag tb, query_headers tb),
     mkState (mkSelf o pr (Some ent) (Some t)) c w [] (cs ++ [query_call t asc]) out).
Proof.
  intros Hn Hwf.
  unfold _find_checked_out_row, _load_syt_log.
  unfold bind, get_self, attr, ret, remote, lift, tableQuery. fields.
  rewrite Hn. destruct Hwf as [Hcols Hrows].
  unfold query_headers at 1. rewrite Hcols.
  cbn [index_of SYT_COLUMNS SYT_COL_USER SYT_COL_ENTITY SYT_COL_CHECKED_OUT
       SYT_COL_CHECKED_IN SYT_COL_MESSAGE String.eqb Ascii.eqb Bool.eqb option_map].
  fields.
  change (sort_by (row_leb asc 4) (with_row_ids 0 (t_rows tb))) with (log_rows asc tb).
  replace (_get_table_column_index (query_headers tb) SYT_COL_USER) with (Some 2%nat)
    by (unfold query_headers; rewrite Hcols; reflexivity).
  replace (_get_table_column_index (query_headers tb) SYT_COL_ENTITY) with (Some 3%nat)
    by (unfold query_headers; rewrite Hcols; reflexivity).
  replace (_get_table_column_index (query_headers tb) SYT_COL_CHECKED_IN) with (Some 5%nat)
    by (unfold query_headers; rewrite Hcols; reflexivity).
  rewrite find_loop_find by (apply wf_log_rows; split; assumption).
  reflexivity.
Qed.

Lemma list_eqb_refl l : list_eqb l l = true.
Proof. induction l; simpl; [reflexivity|]. now rewrite String.eqb_refl. Qed.

Section Scenario.

Variables (w : World) (eid : string) (e p : Entity) (cur : option tid) (tb : TableData).
Hypothesis Hget : get w eid = Return e.
Hypothesis Hlock : lockable e = true.
Hypothesis Hproj : project_of recursion_limit w e = Return p.
Hypothesis Htb :
  nth_error (w_tables (snd (ensure_table w p cur))) (fst (ensure_table w p cur)) = Some tb.
Hypothesis Hwf : wf_log tb.

Lemma checkout_quiet_free o pr en c cs out :
  Forall (fun r => open_lock false o eid (snd r) = false) (t_rows tb) ->
  exists cs' out',
    checkout eid (mkState (mkSelf o pr en cur) c w [] cs out)
    = (Return tt,
       mkState (mkSelf o (Some p) (Some e) (Some (fst (ensure_table w p cur)))) c
               (set_table (snd (ensure_table w p cur)) (fst (ensure_table w p cur))
                          (appended tb (checkout_row c o eid))) []
               (cs ++ cs' ++ [query_call (fst (ensure_table w p cur)) asc;
                              CallStoreTable (insert_req (fst (ensure_table w p cur))
                                                         (checkout_row c o eid))])
               (out ++ out' ++ ["Entity successfully checked out."]))
    /\ Forall (fun c => load_call c = true) cs'.
Proof.
  intros Hfree.
  destruct (load_entity_quiet eid "Checkout out" o pr en cur c w cs out e p Hget Hlock Hproj)
    as (cs' & out' & Hload & Hcs).
  exists cs', out'. split; [|exact Hcs].
  unfold checkout. rewrite (bind_Return _ _ _ _ _ Hload). cbn [negb].
  rewrite (bind_Return _ _ _ _ _ (find_row_quiet false _ _ _ _ _ _ _ _ tb Htb Hwf)).
  rewrite (get_id _ _ _ Hget), (find_none_log _ _ _ _ _ Hfree).
  unfold bind, get_self, attr, ret, remote, set_table_attr, set_self, print, store_table.
  fields. rewrite Htb. fields.
  unfold append_rows. destruct Hwf as [Hcols _]. rewrite Hcols.
  cbn [forallb List.length Nat.eqb SYT_COLUMNS andb]. fields.
  rewrite (get_id _ _ _ Hget).
  unfold bind, get_self, set_self. fields.
  unfold appended, checkout_row, insert_req, query_call. cbn [map].
  rewrite Hcols. rewrite <- ?app_assoc. reflexivity.
Qed.

Lemma checkout_quiet_taken o pr en c cs out row :
  find (row_open false o eid) (log_rows asc tb) = Some row ->
  exists cs' out',
    checkout eid (mkState (mkSelf o pr en cur) c w [] cs out)
    = (Return tt,
       mkState (mkSelf o (Some p) (Some e) (Some (fst (ensure_table w p cur)))) c
               (snd (ensure_table w p cur)) []
               (cs ++ cs' ++ [query_call (fst (ensure_table w p cur)) asc])
               (out ++ out' ++ ["Entity is already checked out."]))
    /\ Forall (fun c => load_call c = true) cs'.
Proof.
  intros Hfound.
  destruct (load_entity_quiet eid "Checkout out" o pr en cur c w cs out e p Hget Hlock Hproj)
    as (cs' & out' & Hload & Hcs).
  exists cs', out'. split; [|exact Hcs].
  unfold checkout. rewrite (bind_Return _ _ _ _ _ Hload). cbn [negb].
  rewrite (bind_Return _ _ _ _ _ (find_row_quiet false _ _ _ _ _ _ _ _ tb Htb Hwf)).
  rewrite (get_id _ _ _ Hget), Hfound.
  unfold print. fields. rewrite <- ?app_assoc. reflexivity.
Qed.

Lemma checkin_quiet_none o pr en c cs out message force :
  Forall (fun r => open_lock true o eid (snd r) = false) (t_rows tb) ->
  exists cs' out',
    checkin eid message force (mkState (mkSelf o pr en cur) c w [] cs out)
    = (Return tt,
       mkState (mkSelf o (Some p) (Some e) (Some (fst (ensure_table w p cur)))) c
               (snd (ensure_table w p cur)) []
               (cs ++ cs' ++ [query_call (fst (ensure_table w p cur)) asc])
               (out ++ out' ++ ["Entity is not currently checked out."]))
    /\ Forall (fun c => load_call c = true) cs'.
Proof.
  intros Hnone.
  destruct (load_entity_quiet eid "Checking in" o pr en cur c w cs out e p Hget Hlock Hproj)
    as (cs' & out' & Hload & Hcs).
  exists cs', out'. split; [|exact Hcs].
  unfold checkin. rewrite (bind_Return _ _ _ _ _ Hload). cbn [negb].
  rewrite (bind_Return _ _ _ _ _ (find_row_quiet true _ _ _ _ _ _ _ _ tb Htb Hwf)).
  rewrite (get_id _ _ _ Hget), (find_none_log _ _ _ _ _ Hnone).
  unfold print. fields. rewrite <- ?app_assoc. reflexivity.
Qed.

Lemma checkin_quiet_found o pr en c cs out message force n ver cells :
  find (row_open true o eid) (log_rows asc tb) = Some (VInt (Z.of_nat n) :: VInt ver :: cells) ->
  nth_error (t_rows tb) n = Some (ver, cells) ->
  exists cs' out',
    checkin eid message force (mkState (mkSelf o pr en cur) c w [] cs out)
    = (Return tt,
       mkState (mkSelf o (Some p) (Some e) (Some (fst (ensure_table w p cur)))) c
               (set_table (snd (ensure_table w p cur)) (fst (ensure_table w p cur))
                          (rewritten tb n (checked_in_cells c message cells))) []
               (cs ++ cs' ++
                [query_call (fst (ensure_table w p cur)) asc;
                 CallStoreTable
                   (update_req (fst (ensure_table w p cur)) tb
                               (VInt (Z.of_nat n) :: VInt ver ::
                                checked_in_cells c message cells))])
               (out ++ out' ++ ["Updating table..."; "Entity successfully checked in."]))
    /\ Forall (fun c => load_call c = true) cs'.
Proof.
  intros Hfound Hn.
  destruct (load_entity_quiet eid "Checking in" o pr en cur c w cs out e p Hget Hlock Hproj)
    as (cs' & out' & Hload & Hcs).
  exists cs', out'. split; [|exact Hcs].
  unfold checkin. rewrite (bind_Return _ _ _ _ _ Hload). cbn [negb].
  rewrite (bind_Return _ _ _ _ _ (find_row_quiet true _ _ _ _ _ _ _ _ tb Htb Hwf)).
  rewrite (get_id _ _ _ Hget), Hfound.
  destruct Hwf as [Hcols Hrows].
  assert (Hlen : List.length cells = 5%nat).
  { rewrite Forall_forall in Hrows. apply (Hrows (ver, cells)). eapply nth_error_In; eauto. }
  destruct (length5 _ Hlen) as (u & e0 & co & ci & m & ->).
  replace (_get_table_column_index (query_headers tb) SYT_COL_CHECKED_IN) with (Some 5%nat)
    by (unfold query_headers; rewrite Hcols; reflexivity).
  replace (_get_table_column_index (query_headers tb) SYT_COL_MESSAGE) with (Some 6%nat)
    by (unfold query_headers; rewrite Hcols; reflexivity).
  unfold bind, get_self, attr, ret, remote, set_table_attr, set_self, print, lift, store_table.
  cbn [setitem list_set]. fields. rewrite Htb. fields.
  rewrite Nat.eqb_refl. cbn [negb]. rewrite list_eqb_refl. cbn [negb].
  cbn [update_rows update_row].
  assert (Hlt : (n < List.length (t_rows tb))%nat) by (apply nth_error_Some; congruence).
  replace (0 <=? Z.of_nat n)%Z with true by (symmetry; apply Z.leb_le; lia).
  rewrite Nat2Z.id.
  replace (n <? List.length (t_rows tb))%nat with true by (symmetry; now apply Nat.ltb_lt).
  rewrite Hcols. cbn [List.length SYT_COLUMNS Nat.eqb andb]. fields.
  unfold bind, get_self, set_self. fields.
  unfold rewritten, checked_in_cells, update_req, query_call, bump,
    rec_user, rec_entity, rec_checked_out.
  cbn [nth t_name t_parentId t_columns t_rows t_etag]. rewrite Hcols.
  rewrite <- ?app_assoc. reflexivity.
Qed.

End Scenario.

Lemma log_loop_quiet show_all ent rows : forall o pr t c w sch cs out,
  Forall shape7 rows ->
  log_loop show_all (Some 2%nat) (Some 3%nat) (Some 5%nat) (Some 4%nat) (Some 6%nat) rows
           (mkState (mkSelf o pr (Some ent) t) c w sch cs out)
  = (Return tt,
     mkState (mkSelf o pr (Some ent) t) c w sch cs
             (out ++ flat_map block_lines (filter (shown show_all (e_id ent)) rows))).
Proof.
  induction rows as [|r rows IH]; intros o pr t c w sch cs out Hrows.
  - cbn. now rewrite app_nil_r.
  - inversion Hrows as [|? ? Hr Hrest]; subst.
    destruct Hr as (rid & ver & u & e0 & co & ci & m & ->).
    cbn [log_loop filter flat_map].
    unfold shown at 1, row_cells, rec_entity. cbn [skipn nth].
    destruct show_all; cbn [negb orb].
    + run. unfold block. cbn [getitem nth_error]. run.
      rewrite IH by assumption. unfold block_lines at 2, row_cells,
        rec_user, rec_entity, rec_checked_out, rec_checked_in, rec_message.
      cbn [skipn nth]. rewrite <- ?app_assoc. reflexivity.
    + cbn [getitem nth_error]. run.
      destruct (eqb e0 (VStr (e_id ent))); cbn [negb].
      * unfold block. cbn [getitem nth_error]. run.
        rewrite IH by assumption. unfold block_lines at 2, row_cells,
          rec_user, rec_entity, rec_checked_out, rec_checked_in, rec_message.
        cbn [skipn nth]. rewrite <- ?app_assoc. reflexivity.
      * run. rewrite IH by assumption. reflexivity.
Qed.

Lemma log_quiet w eid e p cur tb o pr en c cs out show_all :
  get w eid = Return e ->
  lockable e = true ->
  project_of recursion_limit w e = Return p ->
  nth_error (w_tables (snd (ensure_table w p cur))) (fst (ensure_table w p cur)) = Some tb ->
  wf_log tb ->
  exists cs' out',
    log eid show_all (mkState (mkSelf o pr en cur) c w [] cs out)
    = (Return tt,
       mkState (mkSelf o (Some p) (Some e) (Some (fst (ensure_table w p cur)))) c
               (snd (ensure_table w p cur)) []
               (cs ++ cs' ++ [query_call (fst (ensure_table w p cur)) desc])
               (out ++ out' ++
                flat_map block_lines (filter (shown show_all eid) (log_rows desc tb))))
    /\ Forall (fun c => load_call c = true) cs'
    /\ snd (_load_entity eid "Show Log" (mkState (mkSelf o pr en cur) c w [] cs out))
       = mkState (mkSelf o (Some p) (Some e) (Some (fst (ensure_table w p cur)))) c
                 (snd (ensure_table w p cur)) [] (cs ++ cs') (out ++ out').
Proof.
  intros Hget Hlock Hproj Htb Hwf.
  destruct (load_entity_quiet eid "Show Log" o pr en cur c w cs out e p Hget Hlock Hproj)
    as (cs' & out' & Hload & Hcs).
  exists cs', out'. split; [|split; [exact Hcs | now rewrite Hload]].
  unfold log. rewrite (bind_Return _ _ _ _ _ Hload). cbn [negb].
  unfold _load_syt_log.
  unfold bind at 1. unfold bind at 1. unfold get_self at 1. fields.
  unfold bind at 1. unfold attr at 1. unfold ret at 1.
  unfold remote at 1, tableQuery. fields. rewrite Htb.
  destruct Hwf as [Hcols Hrows].
  unfold query_headers at 1. rewrite Hcols.
  cbn [index_of SYT_COLUMNS SYT_COL_USER SYT_COL_ENTITY SYT_COL_CHECKED_OUT
       SYT_COL_CHECKED_IN SYT_COL_MESSAGE String.eqb Ascii.eqb Bool.eqb option_map].
  fields.
  change (sort_by (row_leb desc 4) (with_row_ids 0 (t_rows tb))) with (log_rows desc tb).
  replace (_get_table_column_index (query_headers tb) SYT_COL_USER) with (Some 2%nat)
    by (unfold query_headers; rewrite Hcols; reflexivity).
  replace (_get_table_column_index (query_headers tb) SYT_COL_ENTITY) with (Some 3%nat)
    by (unfold query_headers; rewrite Hcols; reflexivity).
  replace (_get_table_column_index (query_headers tb) SYT_COL_CHECKED_IN) with (Some 5%nat)
    by (unfold query_headers; rewrite Hcols; reflexivity).
  replace (_get_table_column_index (query_headers tb) SYT_COL_CHECKED_OUT) with (Some 4%nat)
    by (unfold query_headers; rewrite Hcols; reflexivity).
  replace (_get_table_column_index (query_headers tb) SYT_COL_MESSAGE) with (Some 6%nat)
    by (unfold query_headers; rewrite Hcols; reflexivity).
  rewrite log_loop_quiet by (apply wf_log_rows; split; assumption).
  rewrite (get_id _ _ _ Hget). unfold query_call. rewrite <- ?app_assoc. reflexivity.
Qed.

(** An entity of another kind: the run is the same under any schedule. *)
Lemma load_entity_refused eid msg st e :
  get (seen st) eid = Return e ->
  lockable e = false ->
  _load_entity eid msg st
  = (Return false,
     mkState (mkSelf (_user_ownerId (self st)) None None (_table (self st)))
             (cls st) (seen st) (tl (schedule st))
             (calls st ++ [CallGet eid])
             (stdout st ++
              ["Loading Entity...";
               ("Found " ++ kind_of e ++ " " ++ e_name e ++ " (" ++ e_id e ++ ")")%string;
               "Only Folders or Files can be checked in/out. Aborting."])).
Proof.
  intros Hget Hlock. unfold lockable in Hlock.
  unfold _load_entity.
  unfold bind at 1. unfold print at 1. unfold bind at 1. unfold remote at 1. fields.
  unfold seen in Hget. rewrite Hget.
  unfold bind at 1. unfold get_self at 1. unfold bind at 1. unfold set_self at 1.
  rewrite Hlock.
  unfold bind, print, get_self, set_self, ret. fields.
  unfold seen. rewrite <- ?app_assoc. reflexivity.
Qed.

(** ** What any run does, whatever the outside does *)

Lemma count_calls_app f a b : count_calls f (a ++ b) = (count_calls f a + count_calls f b)%nat.
Proof. unfold count_calls. now rewrite filter_app, length_app. Qed.

Lemma tame_silent {A} (m : M A) q s :
  (forall st, cls (snd (m st)) = cls st /\ calls (snd (m st)) = calls st) -> tame q s m.
Proof.
  intros H st. destruct (H st) as [Hc Hcs]. split; [exact Hc|].
  exists []. rewrite app_nil_r. repeat split; auto; cbn; lia.
Qed.

Lemma tame_ret {A} (a : A) q s : tame q s (ret a).
Proof. apply tame_silent. now intros st. Qed.

Lemma tame_raise {A} e q s : tame q s (@raise A e).
Proof. apply tame_silent. now intros st. Qed.

Lemma tame_lift {A} (o : outcome A) q s : tame q s (lift o).
Proof. apply tame_silent. now intros st. Qed.

Lemma tame_print l q s : tame q s (print l).
Proof. apply tame_silent. now intros st. Qed.

Lemma tame_get_self q s : tame q s get_self.
Proof. apply tame_silent. now intros st. Qed.

Lemma tame_set_self x q s : tame q s (set_self x).
Proof. apply tame_silent. now intros st. Qed.

Lemma tame_attr {A} (o : option A) q s : tame q s (attr o).
Proof. destruct o; [apply tame_ret | apply tame_raise]. Qed.

Lemma tame_idle us q s : tame q s (idle us).
Proof. apply tame_silent. now intros st. Qed.

Lemma tame_remote {A} c (f : World -> outcome A * World) q s :
  (count_calls is_query [c] <= q)%nat -> (count_calls is_row_write [c] <= s)%nat ->
  tame q s (remote c f).
Proof.
  intros Hq Hs st. unfold remote.
  destruct (f _) as [r w1]. cbn. split; [reflexivity|]. exists [c]. auto.
Qed.

Lemma tame_bind {A B} (m : M A) (k : A -> M B) q1 s1 q2 s2 q s :
  tame q1 s1 m -> (forall a, tame q2 s2 (k a)) ->
  (q1 + q2 <= q)%nat -> (s1 + s2 <= s)%nat ->
  tame q s (bind m k).
Proof.
  intros Hm Hk Hq Hs st. unfold bind.
  destruct (Hm st) as (Hc & cs1 & Hcs1 & Hq1 & Hs1).
  destruct (m st) as [[a|e] st1]; cbn [snd] in *.
  - destruct (Hk a st1) as (Hc2 & cs2 & Hcs2 & Hq2 & Hs2).
    split; [congruence|]. exists (cs1 ++ cs2).
    rewrite Hcs2, Hcs1, app_assoc, !count_calls_app. repeat split; lia.
  - split; [exact Hc|]. exists cs1. repeat split; auto; lia.
Qed.

(** Steps that make no query and no row write. *)
Lemma tame_then {A B} (m : M A) (k : A -> M B) q s :
  tame 0 0 m -> (forall a, tame q s (k a)) -> tame q s (bind m k).
Proof. intros Hm Hk. eapply tame_bind; eauto. Qed.

Lemma tame_load_project depth : forall child, tame 0 0 (_load_project_for depth child).
Proof.
  induction depth as [|k IH]; intros child; cbn [_load_project_for].
  - apply tame_raise.
  - apply tame_then; [apply tame_remote; cbn; lia|].
    intros parent. destruct (negb (is_Project parent)); [apply IH | apply tame_ret].
Qed.

Lemma tame_set_table_attr t : tame 0 0 (set_table_attr t).
Proof. apply tame_then; [apply tame_get_self | intros; apply tame_set_self]. Qed.

Lemma tame_ensure_access_log p : tame 0 0 (_ensure_access_log p).
Proof.
  unfold _ensure_access_log.
  apply tame_then; [apply tame_print|]. intros _.
  apply tame_then; [apply tame_remote; cbn; lia|]. intros tables.
  apply tame_then.
  - destruct (find_named _ _); [|apply tame_ret].
    apply tame_then; [apply tame_print|]. intros _.
    apply tame_then; [apply tame_remote; cbn; lia|]. intros t'.
    apply tame_set_table_attr.
  - intros _. apply tame_then; [apply tame_get_self|]. intros s.
    destruct (_table s); [apply tame_ret|].
    apply tame_then; [apply tame_print|]. intros _.
    apply tame_then; [apply tame_remote; cbn; lia|]. intros t'.
    apply tame_set_table_attr.
Qed.

Lemma tame_load_entity eid msg : tame 0 0 (_load_entity eid msg).
Proof.
  unfold _load_entity.
  apply tame_then; [apply tame_print|]. intros _.
  apply tame_then; [apply tame_remote; cbn; lia|]. intros e.
  apply tame_then; [apply tame_get_self|]. intros s.
  apply tame_then; [apply tame_set_self|]. intros _.
  apply tame_then.
  - destruct (str_in _ _).
    + apply tame_then; [apply tame_print|]. intros _.
      apply tame_then; [apply tame_load_project|]. intros p.
      apply tame_then; [apply tame_get_self|]. intros s'.
      apply tame_then; [apply tame_set_self|]. intros _.
      apply tame_then; [apply tame_print|]. intros _.
      apply tame_ensure_access_log.
    + apply tame_then; [apply tame_print|]. intros _.
      apply tame_then; [apply tame_print|]. intros _.
      apply tame_then; [apply tame_get_self|]. intros s'.
      apply tame_set_self.
  - intros _. apply tame_then; [apply tame_get_self|]. intros s'. apply tame_ret.
Qed.

Lemma tame_load_syt_log d : tame 1 0 (_load_syt_log d).
Proof.
  unfold _load_syt_log.
  apply tame_then; [apply tame_get_self|]. intros s.
  apply tame_then; [apply tame_attr|]. intros t.
  apply tame_remote; cbn; lia.
Qed.

Lemma tame_find_checked_out_row b : tame 1 0 (_find_checked_out_row b).
Proof.
  unfold _find_checked_out_row.
  eapply tame_bind with (q1 := 1%nat) (s1 := 0%nat) (q2 := 0%nat) (s2 := 0%nat);
    [apply tame_load_syt_log | | lia | lia].
  intros log.
  apply tame_then; [apply tame_get_self|]. intros s.
  apply tame_then; [apply tame_lift|]. intros r. apply tame_ret.
Qed.

Lemma tame_checkout eid : tame 1 1 (checkout eid).
Proof.
  unfold checkout.
  apply tame_then; [apply tame_load_entity|]. intros ok.
  destruct (negb ok); [apply tame_ret|].
  eapply tame_bind with (q1 := 1%nat) (s1 := 0%nat) (q2 := 0%nat) (s2 := 1%nat);
    [apply tame_find_checked_out_row | | lia | lia].
  intros [[row etag] headers]. destruct row; [apply tame_print|].
  apply tame_then; [apply tame_get_self|]. intros s.
  apply tame_then; [apply tame_silent; now intros st|]. intros c.
  apply tame_then; [apply tame_attr|]. intros entity.
  apply tame_then; [apply tame_attr|]. intros t.
  eapply tame_bind with (q1 := 0%nat) (s1 := 1%nat) (q2 := 0%nat) (s2 := 0%nat);
    [apply tame_remote; cbn; lia | | lia | lia].
  intros _. apply tame_then; [apply tame_set_table_attr|]. intros _. apply tame_print.
Qed.

Lemma tame_checkin eid message force : tame 1 1 (checkin eid message force).
Proof.
  unfold checkin.
  apply tame_then; [apply tame_load_entity|]. intros ok.
  destruct (negb ok); [apply tame_ret|].
  eapply tame_bind with (q1 := 1%nat) (s1 := 0%nat) (q2 := 0%nat) (s2 := 1%nat);
    [apply tame_find_checked_out_row | | lia | lia].
  intros [[row etag] headers]. destruct row; [|apply tame_print].
  apply tame_then; [apply tame_print|]. intros _.
  apply tame_then; [apply tame_silent; now intros st|]. intros c.
  apply tame_then; [apply tame_lift|]. intros row1.
  apply tame_then; [apply tame_lift|]. intros row2.
  apply tame_then; [apply tame_get_self|]. intros s.
  apply tame_then; [apply tame_attr|]. intros t.
  eapply tame_bind with (q1 := 0%nat) (s1 := 1%nat) (q2 := 0%nat) (s2 := 0%nat);
    [apply tame_remote; cbn; lia | | lia | lia].
  intros _. apply tame_then; [apply tame_set_table_attr|]. intros _. apply tame_print.
Qed.

Lemma tame_block a b c d e row : tame 0 0 (block a b c d e row).
Proof.
  unfold block.
  repeat (apply tame_then; [first [apply tame_print | apply tame_lift]|]; intros ?).
  apply tame_print.
Qed.

Lemma tame_log_loop show_all a b c d e rows : tame 0 0 (log_loop show_all a b c d e rows).
Proof.
  induction rows as [|row rows IH]; cbn [log_loop]; [apply tame_ret|].
  apply tame_then.
  - destruct (negb show_all); [|apply tame_ret].
    apply tame_then; [apply tame_lift|]. intros v.
    apply tame_then; [apply tame_get_self|]. intros s.
    apply tame_then; [apply tame_attr|]. intros entity. apply tame_ret.
  - intros skip. apply tame_then; [|intros _; exact IH].
    destruct skip; [apply tame_ret | apply tame_block].
Qed.

Lemma tame_log eid show_all : tame 1 0 (log eid show_all).
Proof.
  unfold log.
  apply tame_then; [apply tame_load_entity|]. intros ok.
  destruct (negb ok); [apply tame_ret|].
  eapply tame_bind with (q1 := 1%nat) (s1 := 0%nat) (q2 := 0%nat) (s2 := 0%nat);
    [apply tame_load_syt_log | | lia | lia].
  intros log. apply tame_log_loop.
Qed.

(** ** From one command to the next *)

Lemma get_entities w1 w2 id : w_entities w1 = w_entities w2 -> get w1 id = get w2 id.
Proof. unfold get. now intros ->. Qed.

Lemma project_of_entities depth w1 w2 :
  w_entities w1 = w_entities w2 -> forall e, project_of depth w1 e = project_of depth w2 e.
Proof.
  intros H. induction depth as [|k IH]; intros e; cbn [project_of]; [reflexivity|].
  rewrite (get_entities _ _ _ H). destruct (get w2 _) as [parent|]; [|reflexivity].
  destruct (negb _); auto.
Qed.

Lemma ensure_table_entities w p cur : w_entities (snd (ensure_table w p cur)) = w_entities w.
Proof.
  unfold ensure_table. destruct (find_named _ _); [reflexivity|].
  destruct cur; reflexivity.
Qed.

Lemma getChildren_tables w1 w2 p : w_tables w1 = w_tables w2 -> getChildren w1 p = getChildren w2 p.
Proof. unfold getChildren. now intros ->. Qed.

Lemma ensure_table_found w p :
  find_named SYT_TABLE_NAME (getChildren (snd (ensure_table w p None)) p)
  = Some (fst (ensure_table w p None)).
Proof.
  unfold ensure_table.
  destruct (find_named _ (getChildren w p)) as [i|] eqn:E; cbn [fst snd].
  - exact E.
  - now apply ensure_table_created.
Qed.

Lemma ensure_table_known w p t cur :
  find_named SYT_TABLE_NAME (getChildren w p) = Some t -> ensure_table w p cur = (t, w).
Proof. unfold ensure_table. now intros ->. Qed.

(** Once a command of a fresh process has run, the log table is found by
    name, also after its rows were rewritten and time has passed. *)
Lemma ensure_table_again w p tb tb' w2 cur :
  nth_error (w_tables (snd (ensure_table w p None))) (fst (ensure_table w p None)) = Some tb ->
  t_name tb' = t_name tb -> t_parentId tb' = t_parentId tb ->
  w_tables w2 = replace_nth (fst (ensure_table w p None)) tb'
                            (w_tables (snd (ensure_table w p None))) ->
  ensure_table w2 p cur = (fst (ensure_table w p None), w2).
Proof.
  intros Htb Hn Hp Hw2. apply ensure_table_known.
  unfold getChildren. rewrite Hw2.
  rewrite (children_from_replace _ _ _ _ _ _ Htb Hn Hp).
  apply ensure_table_found.
Qed.

Lemma ensure_table_same w p tb w2 cur :
  nth_error (w_tables (snd (ensure_table w p None))) (fst (ensure_table w p None)) = Some tb ->
  w_tables w2 = w_tables (snd (ensure_table w p None)) ->
  ensure_table w2 p cur = (fst (ensure_table w p None), w2).
Proof.
  intros Htb Hw2. apply ensure_table_known.
  rewrite (getChildren_tables _ _ _ Hw2). apply ensure_table_found.
Qed.

Lemma open_lock_weaken o o' eid cells :
  open_lock true o eid cells = true -> open_lock false o' eid cells = true.
Proof.
  unfold open_lock. cbn [negb orb]. rewrite !andb_true_iff. tauto.
Qed.

Lemma open_lock_any_user o o' eid cells :
  open_lock false o eid cells = open_lock false o' eid cells.
Proof. reflexivity. Qed.

Lemma closed_for_all o o' eid rows :
  Forall (fun r : Z * list value => open_lock false o eid (snd r) = false) rows ->
  Forall (fun r : Z * list value => open_lock true o' eid (snd r) = false) rows.
Proof.
  apply Forall_impl. intros r H.
  destruct (open_lock true o' eid (snd r)) eqn:E; [|reflexivity].
  apply (open_lock_weaken _ o) in E. congruence.
Qed.

Lemma replace_nth_last {A} (l : list A) x y :
  replace_nth (List.length l) x (l ++ [y]) = l ++ [x].
Proof. induction l; simpl; [reflexivity|]. now rewrite IHl. Qed.

Lemma wf_appended tb cells :
  wf_log tb -> List.length cells = 5%nat -> wf_log (appended tb cells).
Proof.
  intros [Hc Hr] Hl. split; [exact Hc|]. cbn [appended t_rows].
  apply Forall_app. split; [exact Hr|]. now constructor.
Qed.

Lemma checkout_row_open c o eid : open_lock true o eid (checkout_row c o eid) = true.
Proof.
  unfold open_lock, checkout_row, rec_user, rec_entity, rec_checked_in.
  cbn [nth negb orb eqb]. now rewrite !String.eqb_refl.
Qed.

Lemma checkout_row_other c o o' eid :
  o <> o' -> open_lock true o' eid (checkout_row c o eid) = false.
Proof.
  intros H. unfold open_lock, checkout_row, rec_user. cbn [nth negb orb eqb].
  apply String.eqb_neq in H. now rewrite H.
Qed.

Lemma checked_in_closed b o eid c message cells :
  open_lock b o eid (checked_in_cells c message cells) = false.
Proof.
  unfold open_lock, checked_in_cells, rec_checked_in. cbn [nth eqb].
  now rewrite andb_false_r.
Qed.

(** The open row a user's own check-out added is the one check-in finds. *)
Lemma find_own_row c o eid tb n ver cells :
  Forall (fun r => open_lock false o eid (snd r) = false) (t_rows tb) ->
  nth_error (t_rows (appended tb (checkout_row c o eid))) n = Some (ver, cells) ->
  open_lock true o eid cells = true ->
  n = List.length (t_rows tb) /\ cells = checkout_row c o eid.
Proof.
  intros Hfree Hn Hopen. cbn [appended t_rows] in Hn.
  destruct (Nat.lt_ge_cases n (List.length (t_rows tb))) as [Hlt|Hge].
  - rewrite nth_error_app1 in Hn by exact Hlt.
    apply nth_error_In in Hn. rewrite Forall_forall in Hfree.
    specialize (Hfree _ Hn). cbn [snd] in Hfree.
    apply (open_lock_weaken _ o) in Hopen. congruence.
  - rewrite nth_error_app2 in Hn by exact Hge.
    destruct (n - List.length (t_rows tb))%nat as [|k] eqn:E.
    + cbn in Hn. inversion Hn; subst. split; [lia | reflexivity].
    + cbn in Hn. destruct k; discriminate.
Qed.

Lemma find_exists b o eid d tb ver cells :
  In (ver, cells) (t_rows tb) -> open_lock b o eid cells = true ->
  find (row_open b o eid) (log_rows d tb) <> None.
Proof.
  intros Hin Hopen Hnone.
  destruct (In_with_row_ids _ 0%nat _ _ Hin) as [rid Hr].
  apply (Permutation_in _ (log_rows_perm d tb)) in Hr.
  pose proof (find_none _ _ Hnone _ Hr) as H. cbn in H.
  unfold row_open, row_cells in H. cbn [skipn] in H. congruence.
Qed.

Lemma load_calls_no_write cs :
  Forall (fun c => load_call c = true) cs -> count_calls is_row_write cs = 0%nat.
Proof.
  unfold count_calls. induction 1 as [|x l Hx _ IH]; [reflexivity|]. cbn.
  unfold load_call in Hx. apply andb_true_iff in Hx. destruct Hx as [Hx _].
  destruct (is_row_write x); [discriminate | exact IH].
Qed.

Section TwoCommands.

Variables (w : World) (eid : string) (e p : Entity) (tb : TableData).
Hypothesis Hget : get w eid = Return e.
Hypothesis Hlock : lockable e = true.
Hypothesis Hproj : project_of recursion_limit w e = Return p.
Hypothesis Htb :
  nth_error (w_tables (snd (ensure_table w p None))) (fst (ensure_table w p None)) = Some tb.
Hypothesis Hwf : wf_log tb.


(** A later state of the service: same entities, the log table holding
    [tb1], any clock. *)
Variables (w1 : World) (tb1 : TableData).
Hypothesis Hent1 : w_entities w1 = w_entities w.
Hypothesis Htabs1 :
  w_tables w1 = replace_nth (fst (ensure_table w p None)) tb1
                            (w_tables (snd (ensure_table w p None))).
Hypothesis Hname1 : t_name tb1 = t_name tb.
Hypothesis Hparent1 : t_parentId tb1 = t_parentId tb.

Lemma later_get : get w1 eid = Return e.
Proof. rewrite (get_entities _ _ _ Hent1). exact Hget. Qed.

Lemma later_project : project_of recursion_limit w1 e = Return p.
Proof. rewrite (project_of_entities _ _ _ Hent1). exact Hproj. Qed.

Lemma later_ensure cur : ensure_table w1 p cur = (fst (ensure_table w p None), w1).
Proof. exact (ensure_table_again w p tb tb1 w1 cur Htb Hname1 Hparent1 Htabs1). Qed.

Lemma later_table cur :
  nth_error (w_tables (snd (ensure_table w1 p cur))) (fst (ensure_table w1 p cur)) = Some tb1.
Proof.
  rewrite later_ensure. cbn [fst snd]. rewrite Htabs1.
  eapply replace_nth_nth_error. exact Htb.
Qed.

End TwoCommands.

Lemma set_table_entities w t tb : w_entities (set_table w t tb) = w_entities w.
Proof. reflexivity. Qed.

Lemma ensure_table_clock w p cur : w_clock (snd (ensure_table w p cur)) = w_clock w.
Proof.
  unfold ensure_table. destruct (find_named _ _); [reflexivity|].
  destruct cur; reflexivity.
Qed.

Lemma stamp_below_now clk d :
  (1000000 <= d)%Z -> (clk / 1000000 * 1000 < (clk + d) / 1000)%Z.
Proof.
  intros Hd.
  pose proof (Z.div_mod clk 1000000 ltac:(lia)) as Hdm.
  pose proof (Z.mod_pos_bound clk 1000000 ltac:(lia)) as Hb.
  assert (clk / 1000000 * 1000 + 1000 <= (clk + d) / 1000)%Z; [|lia].
  apply Z.div_le_lower_bound; lia.
Qed.

Lemma stamp_within_second clk :
  (clk / 1000000 * 1000 <= clk / 1000 < clk / 1000000 * 1000 + 1000)%Z.
Proof.
  pose proof (Z.div_mod clk 1000000 ltac:(lia)) as Hdm.
  pose proof (Z.mod_pos_bound clk 1000000 ltac:(lia)) as Hb.
  split.
  - apply Z.div_le_lower_bound; lia.
  - apply Z.div_lt_upper_bound; lia.
Qed.

Lemma store_table_Raise w r e w2 : store_table w r = (Raise e, w2) -> w2 = w.
Proof.
  unfold store_table.
  destruct (nth_error _ _); [|now intros [= _ <-]].
  destruct (r_etag r).
  - destruct (negb _); [now intros [= _ <-]|].
    destruct (r_headers r); [|now intros [= _ <-]].
    destruct (negb _); [now intros [= _ <-]|].
    destruct (update_rows _ _); [discriminate | now intros [= _ <-]].
  - destruct (append_rows _ _); [discriminate | now intros [= _ <-]].
Qed.

Lemma store_table_stale w r tb tok :
  nth_error (w_tables w) (r_table r) = Some tb ->
  r_etag r = Some tok -> tok <> t_etag tb ->
  store_table w r = (Raise (SynapseHTTPError 412), w).
Proof.
  intros Hn He Hne. unfold store_table. rewrite Hn, He.
  apply Nat.eqb_neq in Hne. now rewrite Hne.
Qed.

Lemma filter_all_false {A} (f : A -> bool) (l : list A) :
  Forall (fun y => f y = false) l -> filter f l = [].
Proof. induction 1 as [|y l Hy _ IH]; simpl; [reflexivity|]. now rewrite Hy. Qed.

(** ** The claims *)

(** C1.  [_find_checked_out_row] queries the log in ascending checked-out
    order and scans it: it returns the first row of that order that is an
    open lock on the entity (held by the caller when [by_user] is set), so
    the earliest one when several are open, and [None], not an exception,
    when no row of the table matches; in every case it returns the log's
    etag and headers with it. *)
Theorem find_checked_out_row_first_open
        (by_user : bool) (st : State) (t : tid) (ent : Entity) (tb : TableData) :
  schedule st = [] ->
  _table (self st) = Some t ->
  _entity (self st) = Some ent ->
  nth_error (w_tables (world st)) t = Some tb ->
  wf_log tb ->
  let owner := _user_ownerId (self st) in
  let rows := log_rows asc tb in
  exists found,
    _find_checked_out_row by_user st
    = (Return (found, t_etag tb, query_headers tb),
       mkState (self st) (cls st) (world st) [] (calls st ++ [query_call t asc]) (stdout st))
    /\ Permutation (with_row_ids 0 (t_rows tb)) rows
    /\ StronglySorted checked_out_le rows
    /\ match found with
       | Some row =>
           exists pre post,
             rows = pre ++ row :: post /\
             row_open by_user owner (e_id ent) row = true /\
             Forall (fun r => row_open by_user owner (e_id ent) r = false) pre /\
             (forall r, In r rows -> row_open by_user owner (e_id ent) r = true ->
                        checked_out_le row r)
       | None =>
           Forall (fun r => open_lock by_user owner (e_id ent) (snd r) = false) (t_rows tb)
       end.
Proof.
  intros Hs Ht He Hn Hwf owner rows.
  destruct st as [[o pr en cur] c w sch cs out]. cbn in Hs, Ht, He, Hn. subst sch cur en.
  subst owner. fields.
  exists (find (row_open by_user o (e_id ent)) rows).
  split; [now apply find_row_quiet|].
  split; [apply log_rows_perm|].
  assert (Hsorted : StronglySorted checked_out_le rows) by exact (log_rows_sorted asc tb).
  split; [exact Hsorted|].
  destruct (find _ rows) as [row|] eqn:E.
  - destruct (find_split _ _ _ E) as (pre & post & Hrows & Hopen & Hpre).
    exists pre, post. repeat split; auto.
    intros r Hr Hro. rewrite Hrows in Hsorted, Hr.
    eapply (sorted_first_least checked_out_le (row_open by_user o (e_id ent))); eauto.
    intros a. unfold checked_out_le. destruct (cell_key 4 a); cbn; [apply Z.leb_refl | reflexivity].
  - apply Forall_forall. intros [ver cells] Hin. cbn [snd].
    destruct (In_with_row_ids _ 0%nat _ _ Hin) as [rid Hr].
    apply (Permutation_in _ (log_rows_perm asc tb)) in Hr.
    exact (find_none _ _ E _ Hr).
Qed.

(** C1, on a log with two open rows for the file. *)
Lemma find_checked_out_row_first_open_witness :
  exists found,
    fst (_find_checked_out_row false Demo.st_multi)
    = Return (found, t_etag Demo.tb_multi, query_headers Demo.tb_multi).
Proof.
  destruct (find_checked_out_row_first_open false Demo.st_multi 0%nat Demo.file Demo.tb_multi)
    as (found & Heq & _).
  - reflexivity.
  - reflexivity.
  - reflexivity.
  - reflexivity.
  - split; [reflexivity | repeat constructor].
  - exists found. rewrite Heq. reflexivity.
Defined.

(** X11.  What [checkout] does on a lockable entity, apart from the value of
    the time stamp: a free entity gets one new open row through one insert
    without token, a taken one is left alone, so that two check-outs in a
    row leave one open row. *)
Theorem checkout_twice_one_open_row
        (w : World) (eid : string) (e p : Entity) (tb : TableData) (U V : string) :
  get w eid = Return e ->
  lockable e = true ->
  project_of recursion_limit w e = Return p ->
  nth_error (w_tables (snd (ensure_table w p None))) (fst (ensure_table w p None)) = Some tb ->
  wf_log tb ->
  Forall (fun r => open_lock false U eid (snd r) = false) (t_rows tb) ->
  let out1 := checkout eid (start U w []) in
  let out2 := checkout eid (start V (world (snd out1)) []) in
  let row := checkout_row (define_class w) U eid in
  fst out1 = Return tt /\
  log_table (snd out1) = Some (appended tb row) /\
  (exists cs, calls (snd out1)
              = cs ++ [CallStoreTable (insert_req (fst (ensure_table w p None)) row)] /\
              count_calls is_row_write cs = 0%nat) /\
  fst out2 = Return tt /\
  world (snd out2) = world (snd out1) /\
  count_calls is_row_write (calls (snd out2)) = 0%nat /\
  (exists lines, stdout (snd out2) = lines ++ ["Entity is already checked out."]) /\
  List.length (filter (fun r => open_lock false V eid (snd r)) (t_rows (appended tb row)))
  = 1%nat.
Proof.
  intros Hget Hlock Hproj Htb Hwf Hfree out1 out2 row.
  destruct (checkout_quiet_free w eid e p None tb Hget Hlock Hproj Htb Hwf
              U None None (define_class w) [] [] Hfree) as (cs1 & o1 & Hco & Hcs1).
  subst out2 out1 row. unfold start, init. rewrite Hco. fields.
  split; [reflexivity|].
  set (row := checkout_row (define_class w) U eid) in *.
  set (tb1 := appended tb row) in *.
  set (t := fst (ensure_table w p None)) in *.
  set (w1 := set_table (snd (ensure_table w p None)) t tb1) in *.
  assert (Hent1 : w_entities w1 = w_entities w) by (apply ensure_table_entities).
  assert (Htabs1 : w_tables w1 = replace_nth t tb1 (w_tables (snd (ensure_table w p None))))
    by reflexivity.
  pose proof (later_get w eid e Hget w1 Hent1) as Hget1.
  pose proof (later_project w e p Hproj w1 Hent1) as Hproj1.
  pose proof (later_ensure w p tb Htb w1 tb1 Htabs1 eq_refl eq_refl None) as Hens1.
  pose proof (later_table w p tb Htb w1 tb1 Htabs1 eq_refl eq_refl None) as Htb1.
  assert (Hwf1 : wf_log tb1) by (apply wf_appended; [exact Hwf | reflexivity]).
  assert (Hin1 : In (Z.of_nat (S (t_etag tb)), row) (t_rows tb1)).
  { cbn [tb1 appended t_rows]. apply in_or_app. right. now left. }
  split.
  { unfold log_table. fields. change (nth_error (w_tables w1) t = Some tb1).
    rewrite Htabs1. eapply replace_nth_nth_error. exact Htb. }
  split.
  { exists (cs1 ++ [query_call t asc]). cbn [app]. split.
    - now rewrite <- app_assoc.
    - rewrite count_calls_app, (load_calls_no_write _ Hcs1). reflexivity. }
  destruct (find (row_open false V eid) (log_rows asc tb1)) as [found|] eqn:Efind.
  2:{ exfalso. eapply find_exists; [exact Hin1 | | exact Efind].
      eapply open_lock_weaken. apply checkout_row_open. }
  destruct (checkout_quiet_taken w1 eid e p None tb1 Hget1 Hlock Hproj1 Htb1 Hwf1
              V None None (define_class w1) [] [] found Efind) as (cs2 & o2 & Hco2 & Hcs2).
  rewrite Hco2. fields. rewrite Hens1. cbn [fst snd].
  split; [reflexivity|]. split; [reflexivity|].
  split; [cbn [app]; rewrite count_calls_app, (load_calls_no_write _ Hcs2); reflexivity|].
  split; [exists o2; reflexivity|].
  cbn [tb1 appended t_rows]. rewrite filter_app,
    (filter_all_false (fun r : Z * list value => open_lock false V eid (snd r)) _ Hfree).
  cbn [filter app snd].
  replace (open_lock false V eid row) with true; [reflexivity|].
  symmetry. eapply open_lock_weaken. apply checkout_row_open.
Qed.

(** C2 at a process that reaches its first call thirty seconds after the
    class was defined: the row appended is as the claim says, except that
    checked_out is the class-definition second, not the time of the call. *)
Theorem checkout_records_class_load_time :
  let st := start Demo.alice Demo.w0 [Elapse 30000000] in
  let out := checkout "syn3" st in
  fst out = Return tt /\
  option_map t_rows (log_table (snd out))
  = Some [(1%Z, [VStr Demo.alice; VStr "syn3"; VInt 1600000000000; VNone; VNone])] /\
  _get_synapse_timestamp (cls st) None = 1600000000000%Z /\
  now_ms (world (snd out)) = 1600000030123%Z.
Proof. cbv zeta. repeat split; vm_compute; reflexivity. Qed.

(** C3.  [checkin] ignores [force]: it always looks for the caller's own
    open row.  When the caller holds no open lock on the entity it reports
    that the entity is not checked out and writes no row; so after a
    check-out by [U], a check-in by another user [V] leaves the service,
    and [U]'s open row in it, as they were. *)
Theorem checkin_restricted_to_caller
        (w : World) (eid : string) (e p : Entity) (tb : TableData)
        (U V : string) (message force force' : value) :
  get w eid = Return e ->
  lockable e = true ->
  project_of recursion_limit w e = Return p ->
  nth_error (w_tables (snd (ensure_table w p None))) (fst (ensure_table w p None)) = Some tb ->
  wf_log tb ->
  (forall st, checkin eid message force st = checkin eid message force' st) /\
  (Forall (fun r => open_lock true V eid (snd r) = false) (t_rows tb) ->
   let out := checkin eid message force (start V w []) in
   fst out = Return tt /\
   (exists lines, stdout (snd out) = lines ++ ["Entity is not currently checked out."]) /\
   count_calls is_row_write (calls (snd out)) = 0%nat /\
   world (snd out) = snd (ensure_table w p None) /\
   log_table (snd out) = Some tb) /\
  (U <> V ->
   Forall (fun r => open_lock false U eid (snd r) = false) (t_rows tb) ->
   let out1 := checkout eid (start U w []) in
   let out2 := checkin eid message force (start V (world (snd out1)) []) in
   fst out1 = Return tt /\
   fst out2 = Return tt /\
   count_calls is_row_write (calls (snd out2)) = 0%nat /\
   world (snd out2) = world (snd out1) /\
   log_table (snd out2) = Some (appended tb (checkout_row (define_class w) U eid)) /\
   open_lock true U eid (checkout_row (define_class w) U eid) = true).
Proof.
  intros Hget Hlock Hproj Htb Hwf.
  split; [reflexivity|]. split.
  - intros Hnone out.
    destruct (checkin_quiet_none w eid e p None tb Hget Hlock Hproj Htb Hwf
                V None None (define_class w) [] [] message force Hnone)
      as (cs1 & o1 & Hci & Hcs).
    subst out. unfold start, init. rewrite Hci. fields.
    split; [reflexivity|].
    split; [exists o1; reflexivity|].
    split; [cbn [app]; rewrite count_calls_app, (load_calls_no_write _ Hcs); reflexivity|].
    split; [reflexivity|].
    unfold log_table. fields. exact Htb.
  - intros Hneq Hfree out1 out2.
    destruct (checkout_quiet_free w eid e p None tb Hget Hlock Hproj Htb Hwf
                U None None (define_class w) [] [] Hfree) as (cs1 & o1 & Hco & _).
    subst out2 out1. unfold start, init. rewrite Hco. fields.
    split; [reflexivity|].
    set (row1 := checkout_row (define_class w) U eid) in *.
    set (tb1 := appended tb row1) in *.
    set (t := fst (ensure_table w p None)) in *.
    set (w1 := set_table (snd (ensure_table w p None)) t tb1) in *.
    assert (Hent1 : w_entities w1 = w_entities w) by (apply ensure_table_entities).
    assert (Htabs1 : w_tables w1 = replace_nth t tb1 (w_tables (snd (ensure_table w p None))))
      by reflexivity.
    pose proof (later_get w eid e Hget w1 Hent1) as Hget1.
    pose proof (later_project w e p Hproj w1 Hent1) as Hproj1.
    pose proof (later_ensure w p tb Htb w1 tb1 Htabs1 eq_refl eq_refl None) as Hens1.
    pose proof (later_table w p tb Htb w1 tb1 Htabs1 eq_refl eq_refl None) as Htb1.
    assert (Hwf1 : wf_log tb1) by (apply wf_appended; [exact Hwf | reflexivity]).
    assert (Hnone : Forall (fun r => open_lock true V eid (snd r) = false) (t_rows tb1)).
    { cbn [tb1 appended t_rows]. apply Forall_app. split.
      - exact (closed_for_all U V eid _ Hfree).
      - constructor; [|constructor]. cbn [snd]. now apply checkout_row_other. }
    destruct (checkin_quiet_none w1 eid e p None tb1 Hget1 Hlock Hproj1 Htb1 Hwf1
                V None None (define_class w1) [] [] message force Hnone)
      as (cs2 & o2 & Hci & Hcs).
    rewrite Hci. fields. rewrite Hens1. cbn [fst snd].
    split; [reflexivity|].
    split; [cbn [app]; rewrite count_calls_app, (load_calls_no_write _ Hcs); reflexivity|].
    split; [reflexivity|].
    split; [|apply checkout_row_open].
    unfold log_table. fields. rewrite Htabs1.
    eapply replace_nth_nth_error. exact Htb.
Qed.

(** C3, with alice checking out and bob trying to check in. *)
Lemma checkin_restricted_to_caller_witness :
  world (snd (checkin "syn3" (VStr "mine") (VStr "yes")
                      (start Demo.bob
                             (world (snd (checkout "syn3" (start Demo.alice Demo.w0 [])))) [])))
  = world (snd (checkout "syn3" (start Demo.alice Demo.w0 []))).
Proof.
  destruct (checkin_restricted_to_caller Demo.w0 "syn3" Demo.file Demo.project Demo.tb_empty
                                         Demo.alice Demo.bob (VStr "mine") (VStr "yes") VNone)
    as (_ & _ & H).
  - reflexivity.
  - reflexivity.
  - reflexivity.
  - reflexivity.
  - split; [reflexivity | constructor].
  - destruct H as (_ & _ & _ & H & _).
    + discriminate.
    + constructor.
    + exact H.
Defined.

(** X12.  What [checkin] does to the log when it finds the caller's open
    row, apart from the value of the time stamp: that row alone is rewritten,
    by one update carrying the token and headers of the query. *)
Theorem checkin_rewrites_only_its_row
        (w : World) (eid : string) (e p : Entity) (tb : TableData) (U : string)
        (message force : value) (n : nat) (ver : Z) (cells : list value) :
  get w eid = Return e ->
  lockable e = true ->
  project_of recursion_limit w e = Return p ->
  nth_error (w_tables (snd (ensure_table w p None))) (fst (ensure_table w p None)) = Some tb ->
  wf_log tb ->
  find (row_open true U eid) (log_rows asc tb) = Some (VInt (Z.of_nat n) :: VInt ver :: cells) ->
  let st := start U w [] in
  let out := checkin eid message force st in
  let cells' := [rec_user cells; rec_entity cells; rec_checked_out cells;
                 VInt (_get_synapse_timestamp (cls st) None); message] in
  fst out = Return tt /\
  nth_error (t_rows tb) n = Some (ver, cells) /\
  (exists tb2 ver2,
      log_table (snd out) = Some tb2 /\
      nth_error (t_rows tb2) n = Some (ver2, cells') /\
      (forall m, m <> n -> nth_error (t_rows tb2) m = nth_error (t_rows tb) m) /\
      List.length (t_rows tb2) = List.length (t_rows tb)) /\
  (exists cs,
      calls (snd out)
      = cs ++ [CallStoreTable (update_req (fst (ensure_table w p None)) tb
                                          (VInt (Z.of_nat n) :: VInt ver :: cells'))] /\
      count_calls is_row_write cs = 0%nat).
Proof.
  intros Hget Hlock Hproj Htb Hwf Efind st out cells'.
  destruct (find_some_log _ _ _ _ _ _ Efind) as (n' & ver' & cells0 & Heq & Hn & Hopen).
  injection Heq as Hn' <- <-. apply Nat2Z.inj in Hn'. subst n'.
  destruct (checkin_quiet_found w eid e p None tb Hget Hlock Hproj Htb Hwf
              U None None (define_class w) [] [] message force _ _ _ Efind Hn)
    as (cs1 & o1 & Hci & Hcs1).
  subst out st cells'. unfold start, init. rewrite Hci. fields.
  split; [reflexivity|]. split; [exact Hn|]. split.
  - eexists. eexists. split; [|split; [|split]].
    + unfold log_table. fields. unfold set_table. cbn [w_tables].
      eapply replace_nth_nth_error. exact Htb.
    + cbn [rewritten t_rows]. eapply replace_nth_nth_error. exact Hn.
    + intros m Hm. cbn [rewritten t_rows]. apply replace_nth_other. congruence.
    + cbn [rewritten t_rows]. apply replace_nth_length.
  - exists (cs1 ++ [query_call (fst (ensure_table w p None)) asc]). cbn [app]. split.
    + now rewrite <- app_assoc.
    + rewrite count_calls_app, (load_calls_no_write _ Hcs1). reflexivity.
Qed.

(** C4 at a process that reaches its first call thirty seconds after the
    class was defined: only checked_in and message of alice's row change,
    but checked_in is the class-definition second, not the time of the
    call. *)
Theorem checkin_records_class_load_time :
  let st := start Demo.alice Demo.w1 [Elapse 30000000] in
  let out := checkin "syn3" (VStr "done") VNone st in
  fst out = Return tt /\
  option_map t_rows (log_table (snd out))
  = Some [(2%Z, [VStr Demo.alice; VStr "syn3"; VInt 1600000000000;
                 VInt 1600003600000; VStr "done"])] /\
  _get_synapse_timestamp (cls st) None = 1600003600000%Z /\
  now_ms (world (snd out)) = 1600003630123%Z.
Proof. cbv zeta. repeat split; vm_compute; reflexivity. Qed.

(** C5 as stated fails: bob's insert makes alice's token stale, the store
    refuses her update with 412, and [checkin] raises at once, after one
    query and one write. *)
Lemma checkin_conflict_not_retried :
  let st := start Demo.alice Demo.w1 Demo.conflict_schedule in
  let out := checkin "syn3" (VStr "done") VNone st in
  fst out = Raise (SynapseHTTPError 412) /\
  ~ retried (calls (snd out)) /\
  count_calls is_query (calls (snd out)) = 1%nat /\
  count_calls is_row_write (calls (snd out)) = 1%nat /\
  option_map t_rows (nth_error (w_tables (world (snd out))) 0)
  = Some [(1%Z, [VStr Demo.alice; VStr "syn3"; VInt 1600000000000; VNone; VNone]);
          (2%Z, [VStr Demo.bob; VStr "syn2"; VInt 1600003600000; VNone; VNone])].
Proof.
  cbv zeta. repeat split; try (vm_compute; reflexivity).
  unfold retried. vm_compute. lia.
Qed.

(** C5, amended.  [checkin] never starts a second read-resolve-write
    cycle: any run makes at most one query and at most one row write.  When
    the store refuses the update, the exception it raised leaves [checkin]
    as it is, right after that one call, and the refused write changes
    nothing; a stale token is refused with 412. *)
Theorem checkin_conflict_propagates (eid : string) (message force : value) :
  (forall st, exists cs,
      calls (snd (checkin eid message force st)) = calls st ++ cs /\
      (count_calls is_query cs <= 1)%nat /\
      (count_calls is_row_write cs <= 1)%nat) /\
  (forall st st0 st1 row etag headers row1 row2 t e w2,
      _load_entity eid "Checking in" st = (Return true, st0) ->
      _find_checked_out_row true st0 = (Return (Some row, etag, headers), st1) ->
      setitem row (_get_table_column_index headers SYT_COL_CHECKED_IN)
              (VInt (_get_synapse_timestamp (cls st1) None)) = Return row1 ->
      setitem row1 (_get_table_column_index headers SYT_COL_MESSAGE) message = Return row2 ->
      _table (self st1) = Some t ->
      store_table (seen st1) (mkReq t [row2] (Some etag) (Some headers)) = (Raise e, w2) ->
      checkin eid message force st
      = (Raise e,
         mkState (self st1) (cls st1) (seen st1) (tl (schedule st1))
                 (calls st1 ++ [CallStoreTable (mkReq t [row2] (Some etag) (Some headers))])
                 (stdout st1 ++ ["Updating table..."]))) /\
  (forall w r tb tok,
      nth_error (w_tables w) (r_table r) = Some tb ->
      r_etag r = Some tok -> tok <> t_etag tb ->
      store_table w r = (Raise (SynapseHTTPError 412), w)).
Proof.
  split; [|split].
  - intros st. destruct (tame_checkin eid message force st) as (_ & cs & H). now exists cs.
  - intros st st0 st1 row etag headers row1 row2 t e w2 Hload Hfind Hs1 Hs2 Ht Hstore.
    pose proof (store_table_Raise _ _ _ _ Hstore) as ->.
    unfold checkin. rewrite (bind_Return _ _ _ _ _ Hload). cbn [negb].
    rewrite (bind_Return _ _ _ _ _ Hfind).
    unfold bind at 1. unfold print at 1.
    unfold bind at 1. fields.
    rewrite Hs1. unfold bind at 1. unfold lift at 1.
    rewrite Hs2. unfold bind at 1. unfold lift at 1.
    unfold bind at 1. unfold get_self at 1. fields.
    rewrite Ht. unfold bind at 1. unfold attr at 1, ret at 1.
    unfold bind at 1. unfold remote at 1. fields.
    unfold seen in Hstore. rewrite Hstore. unfold seen. reflexivity.
  - exact store_table_stale.
Qed.

(** C5 amended, on the run above. *)
Lemma checkin_conflict_propagates_witness :
  checkin "syn3" (VStr "done") VNone (start Demo.alice Demo.w1 Demo.conflict_schedule)
  = (Raise (SynapseHTTPError 412),
     snd (checkin "syn3" (VStr "done") VNone
                  (start Demo.alice Demo.w1 Demo.conflict_schedule))).
Proof.
  set (st := start Demo.alice Demo.w1 Demo.conflict_schedule).
  pose (st0 := snd (_load_entity "syn3" "Checking in" st)).
  pose (st1 := snd (_find_checked_out_row true st0)).
  pose (row := [VInt 0; VInt 1; VStr Demo.alice; VStr "syn3"; VInt 1600000000000;
                VNone; VNone]).
  pose (row1 := [VInt 0; VInt 1; VStr Demo.alice; VStr "syn3"; VInt 1600000000000;
                 VInt 1600003600000; VNone]).
  pose (row2 := [VInt 0; VInt 1; VStr Demo.alice; VStr "syn3"; VInt 1600000000000;
                 VInt 1600003600000; VStr "done"]).
  destruct (checkin_conflict_propagates "syn3" (VStr "done") VNone) as (_ & H & _).
  rewrite (H st st0 st1 row 1%nat (query_headers Demo.tb1) row1 row2 0%nat
             (SynapseHTTPError 412) (seen st1)).
  - reflexivity.
  - vm_compute. reflexivity.
  - vm_compute. reflexivity.
  - vm_compute. reflexivity.
  - vm_compute. reflexivity.
  - vm_compute. reflexivity.
  - vm_compute. reflexivity.
Defined.

(** C6.  Round trip: on a lockable entity without an open lock, a
    check-out by a user followed by that user's check-in leaves no row of
    the log with that entity and an absent checked-in value. *)
Theorem checkout_then_checkin_unlocked
        (w : World) (eid : string) (e p : Entity) (tb : TableData)
        (U : string) (message force : value) :
  get w eid = Return e ->
  lockable e = true ->
  project_of recursion_limit w e = Return p ->
  nth_error (w_tables (snd (ensure_table w p None))) (fst (ensure_table w p None)) = Some tb ->
  wf_log tb ->
  Forall (fun r => open_lock false U eid (snd r) = false) (t_rows tb) ->
  let out1 := checkout eid (start U w []) in
  let out2 := checkin eid message force (start U (world (snd out1)) []) in
  fst out1 = Return tt /\
  fst out2 = Return tt /\
  exists tb2,
    log_table (snd out2) = Some tb2 /\
    List.length (t_rows tb2) = S (List.length (t_rows tb)) /\
    forall V, Forall (fun r => open_lock false V eid (snd r) = false) (t_rows tb2).
Proof.
  intros Hget Hlock Hproj Htb Hwf Hfree out1 out2.
  destruct (checkout_quiet_free w eid e p None tb Hget Hlock Hproj Htb Hwf
              U None None (define_class w) [] [] Hfree) as (cs1 & o1 & Hco & _).
  subst out2 out1. unfold start, init. rewrite Hco. fields.
  split; [reflexivity|].
  set (row1 := checkout_row (define_class w) U eid) in *.
  set (tb1 := appended tb row1) in *.
  set (t := fst (ensure_table w p None)) in *.
  set (w1 := set_table (snd (ensure_table w p None)) t tb1) in *.
  assert (Hent1 : w_entities w1 = w_entities w) by (apply ensure_table_entities).
  assert (Htabs1 : w_tables w1 = replace_nth t tb1 (w_tables (snd (ensure_table w p None))))
    by reflexivity.
  pose proof (later_get w eid e Hget w1 Hent1) as Hget1.
  pose proof (later_project w e p Hproj w1 Hent1) as Hproj1.
  pose proof (later_ensure w p tb Htb w1 tb1 Htabs1 eq_refl eq_refl None) as Hens1.
  pose proof (later_table w p tb Htb w1 tb1 Htabs1 eq_refl eq_refl None) as Htb1.
  assert (Hwf1 : wf_log tb1) by (apply wf_appended; [exact Hwf | reflexivity]).
  assert (Hin1 : In (Z.of_nat (S (t_etag tb)), row1) (t_rows tb1)).
  { cbn [tb1 appended t_rows]. apply in_or_app. right. now left. }
  destruct (find (row_open true U eid) (log_rows asc tb1)) as [row|] eqn:Efind.
  2:{ exfalso. eapply find_exists; [exact Hin1 | apply checkout_row_open | exact Efind]. }
  destruct (find_some_log _ _ _ _ _ _ Efind) as (n & ver & cells & -> & Hn & Hopen).
  destruct (find_own_row _ _ _ _ _ _ _ Hfree Hn Hopen) as [-> ->].
  destruct (checkin_quiet_found w1 eid e p None tb1 Hget1 Hlock Hproj1 Htb1 Hwf1
              U None None (define_class w1) [] [] message force _ _ _ Efind Hn)
    as (cs2 & o2 & Hci & _).
  unfold start, init. rewrite Hci. fields. split; [reflexivity|].
  rewrite Hens1. cbn [fst snd].
  eexists. split.
  - unfold log_table. fields. unfold set_table. cbn [w_tables].
    eapply replace_nth_nth_error. rewrite Htabs1.
    eapply replace_nth_nth_error. exact Htb.
  - cbn [rewritten t_rows tb1 appended]. rewrite replace_nth_last.
    split; [rewrite length_app; cbn; lia|].
    intros V. apply Forall_app. split; [exact Hfree|].
    constructor; [|constructor]. cbn [snd]. apply checked_in_closed.
Qed.

(** C6, on the project without a log table. *)
Lemma checkout_then_checkin_unlocked_witness :
  fst (checkin "syn3" (VStr "done") VNone
               (start Demo.alice
                      (world (snd (checkout "syn3" (start Demo.alice Demo.w0 [])))) []))
  = Return tt.
Proof.
  destruct (checkout_then_checkin_unlocked Demo.w0 "syn3" Demo.file Demo.project Demo.tb_empty
                                           Demo.alice (VStr "done") VNone)
    as (_ & H & _).
  - reflexivity.
  - reflexivity.
  - reflexivity.
  - reflexivity.
  - split; [reflexivity | constructor].
  - constructor.
  - exact H.
Defined.

(** C7.  On an entity whose kind is neither Folder nor File, [checkout]
    and [checkin] report the kind and the name and return: the one call
    made is the [get] of the entity, no row is written, no table is
    provisioned, and the service is left as it was. *)
Theorem refused_kind_no_side_effect
        (st : State) (eid : string) (e : Entity) (message force : value) :
  get (seen st) eid = Return e ->
  lockable e = false ->
  let refused :=
    mkState (mkSelf (_user_ownerId (self st)) None None (_table (self st)))
            (cls st) (seen st) (tl (schedule st))
            (calls st ++ [CallGet eid])
            (stdout st ++
             ["Loading Entity...";
              ("Found " ++ kind_of e ++ " " ++ e_name e ++ " (" ++ e_id e ++ ")")%string;
              "Only Folders or Files can be checked in/out. Aborting."]) in
  checkout eid st = (Return tt, refused) /\
  checkin eid message force st = (Return tt, refused) /\
  count_calls is_row_write (calls refused) = count_calls is_row_write (calls st) /\
  count_calls is_provision (calls refused) = count_calls is_provision (calls st) /\
  (schedule st = [] -> world refused = world st).
Proof.
  intros Hget Hlock refused.
  pose proof (load_entity_refused eid "Checkout out" st e Hget Hlock) as H1.
  pose proof (load_entity_refused eid "Checking in" st e Hget Hlock) as H2.
  repeat split.
  - unfold checkout. now rewrite (bind_Return _ _ _ _ _ H1).
  - unfold checkin. now rewrite (bind_Return _ _ _ _ _ H2).
  - subst refused. fields. rewrite count_calls_app. cbn. lia.
  - subst refused. fields. rewrite count_calls_app. cbn. lia.
  - intros Hs. subst refused. fields. unfold seen. now rewrite Hs.
Qed.

(** C7, on a table entity of the project. *)
Lemma refused_kind_no_side_effect_witness :
  fst (checkout "syn4" (start Demo.alice Demo.w0 [])) = Return tt /\
  world (snd (checkout "syn4" (start Demo.alice Demo.w0 []))) = Demo.w0.
Proof.
  destruct (refused_kind_no_side_effect (start Demo.alice Demo.w0 []) "syn4" Demo.sheet
                                        VNone VNone eq_refl eq_refl)
    as (H & _).
  rewrite H. split; reflexivity.
Defined.

(** C8 as stated fails: on a project that has no log table yet, showing
    the log creates one. *)
Lemma log_provisions_table :
  let st := start Demo.alice Demo.w0 [] in
  let out := log "syn3" false st in
  fst out = Return tt /\
  w_tables (world st) = [] /\
  w_tables (world (snd out)) = [Demo.tb_empty] /\
  world (snd out) <> world st /\
  count_calls is_provision (calls (snd out)) = 1%nat.
Proof.
  cbv zeta. repeat split; try (vm_compute; reflexivity).
  vm_compute. discriminate.
Qed.

(** C8, amended.  [log] queries the log in descending checked-out order
    and prints one block of the five fields for exactly the rows that
    [show_all] or the entity id selects, in that order; it writes no row
    and leaves every table it found as it was: the one change it can make
    is the creation, by [_ensure_access_log], of the empty log table of a
    project that has none.  On an empty log it prints no block and raises
    nothing. *)
Theorem log_shows_filtered_rows
        (w : World) (eid : string) (e p : Entity) (tb : TableData)
        (owner : string) (show_all : bool) :
  get w eid = Return e ->
  lockable e = true ->
  project_of recursion_limit w e = Return p ->
  nth_error (w_tables (snd (ensure_table w p None))) (fst (ensure_table w p None)) = Some tb ->
  wf_log tb ->
  let st := start owner w [] in
  let loaded := snd (_load_entity eid "Show Log" st) in
  let final := snd (log eid show_all st) in
  let rows := log_rows desc tb in
  fst (log eid show_all st) = Return tt /\
  Permutation (with_row_ids 0 (t_rows tb)) rows /\
  StronglySorted (fun a b => checked_out_le b a) rows /\
  stdout final
  = stdout loaded ++ flat_map block_lines (filter (shown show_all eid) rows) /\
  calls final = calls loaded ++ [query_call (fst (ensure_table w p None)) desc] /\
  count_calls is_row_write (calls final) = 0%nat /\
  world final = snd (ensure_table w p None) /\
  (forall i tb0, nth_error (w_tables w) i = Some tb0 ->
                 nth_error (w_tables (world final)) i = Some tb0) /\
  (forall t, find_named SYT_TABLE_NAME (getChildren w p) = Some t -> world final = w) /\
  (t_rows tb = [] -> stdout final = stdout loaded).
Proof.
  intros Hget Hlock Hproj Htb Hwf st loaded final rows.
  destruct (log_quiet w eid e p None tb owner None None (define_class w) [] [] show_all
                      Hget Hlock Hproj Htb Hwf) as (cs' & out' & Hlog & Hcs & Hload).
  subst st loaded final. unfold start, init. rewrite Hlog, Hload. fields.
  split; [reflexivity|].
  split; [apply log_rows_perm|].
  split; [exact (log_rows_sorted desc tb)|].
  split; [now rewrite app_assoc|].
  split; [reflexivity|].
  split.
  { cbn [app]. rewrite count_calls_app, (load_calls_no_write _ Hcs). reflexivity. }
  split; [reflexivity|].
  split.
  { intros i tb0 Hi. unfold ensure_table.
    destruct (find_named _ _); cbn [snd store_schema w_tables]; [exact Hi|].
    rewrite nth_error_app1; [exact Hi|]. apply nth_error_Some. congruence. }
  split.
  { intros t Ht. now rewrite (ensure_table_known _ _ _ None Ht). }
  intros Hempty. subst rows. unfold log_rows. rewrite Hempty. cbn.
  now rewrite !app_nil_r.
Qed.

(** C8, on the log with history. *)
Lemma log_shows_filtered_rows_witness :
  stdout (snd (log "syn3" false (start Demo.bob Demo.w_multi [])))
  = stdout (snd (_load_entity "syn3" "Show Log" (start Demo.bob Demo.w_multi [])))
    ++ flat_map block_lines (filter (shown false "syn3") (log_rows desc Demo.tb_multi)).
Proof.
  destruct (log_shows_filtered_rows Demo.w_multi "syn3" Demo.file Demo.project Demo.tb_multi
                                    Demo.bob false)
    as (_ & _ & _ & H & _).
  - reflexivity.
  - reflexivity.
  - reflexivity.
  - reflexivity.
  - split; [reflexivity | repeat constructor].
  - exact H.
Defined.

(** C9 as stated fails: with both the variables and the options given,
    the variables win. *)
Lemma login_prefers_environment :
  fst (synapse_login (mkEnviron (Some "env_user") (Some "env_pass"))
                     (Some "cli_user") (Some "cli_pass") (mkTerminal [] []))
  = Return (VStr "env_user", VStr "env_pass") /\
  fst (synapse_login (mkEnviron (Some "env_user") (Some "env_pass"))
                     (Some "cli_user") (Some "cli_pass") (mkTerminal [] []))
  <> Return (VStr "cli_user", VStr "cli_pass").
Proof. split; [reflexivity | discriminate]. Qed.

(** C9, amended.  Each credential is the environment variable when it is
    set and not empty, else the constructor argument ([-u], [-p]) when
    given, else a line read from the terminal: the user name with the
    echoing [input], the password with [getpass]. *)
Theorem login_precedence
        (env : Environ) (_username _password : option string) (term term' : Terminal)
        (syn_user syn_pass : value) :
  synapse_login env _username _password term = (Return (syn_user, syn_pass), term') ->
  let ask_user := prompted (SYNAPSE_USER env) _username in
  let ask_pass := prompted (SYNAPSE_PASSWORD env) _password in
  syn_user = credential (SYNAPSE_USER env) _username (hd EmptyString (typed term)) /\
  syn_pass = credential (SYNAPSE_PASSWORD env) _password
                        (hd EmptyString (if ask_user then tl (typed term) else typed term)) /\
  prompts term'
  = prompts term ++ (if ask_user then [Input "Synapse username: "] else [])
                 ++ (if ask_pass then [GetPass "Synapse password: "] else []).
Proof.
  destruct env as [eu ep], term as [ty pr].
  unfold synapse_login, prompted, credential, env_set, absent, read_line, or_, truthy, of_option.
  cbn [SYNAPSE_USER SYNAPSE_PASSWORD typed prompts].
  destruct eu as [[|c1 s1]|], _username as [u|];
    destruct ep as [[|c2 s2]|], _password as [p|];
    cbn [String.eqb negb eqb andb hd tl app];
    destruct ty as [|l1 [|l2 ty]];
    cbn [String.eqb negb eqb andb hd tl app typed prompts];
    intros H; inversion H; subst; cbn [hd tl];
    rewrite ?app_nil_r, <- ?app_assoc; repeat split; reflexivity.
Qed.

(** C9 amended: user name typed, password from the environment. *)
Lemma login_precedence_witness :
  fst (synapse_login (mkEnviron None (Some "s3cret")) None (Some "ignored")
                     (mkTerminal ["alice"] []))
  = Return (VStr "alice", VStr "s3cret").
Proof.
  destruct (login_precedence (mkEnviron None (Some "s3cret")) None (Some "ignored")
                             (mkTerminal ["alice"] [])
                             (mkTerminal [] [Input "Synapse username: "])
                             (VStr "alice") (VStr "s3cret") eq_refl)
    as (_ & _ & _).
  reflexivity.
Defined.

(** C10.  The default [date_time] of [_get_synapse_timestamp] is fixed
    when the class is defined and no command changes it, so every call
    without argument in one run returns the same value: the instant of the
    class definition, cut to whole seconds, in milliseconds.  A check-out
    and a check-in made [d] microseconds later in the same run therefore
    record the same value in checked_out and checked_in, and as soon as a
    second has passed that value is earlier than the time of the call. *)
Theorem timestamp_frozen_at_class_definition
        (w : World) (eid : string) (e p : Entity) (tb : TableData)
        (U : string) (message force : value) (d : Z) :
  get w eid = Return e ->
  lockable e = true ->
  project_of recursion_limit w e = Return p ->
  nth_error (w_tables (snd (ensure_table w p None))) (fst (ensure_table w p None)) = Some tb ->
  wf_log tb ->
  Forall (fun r => open_lock false U eid (snd r) = false) (t_rows tb) ->
  let st := start U w [] in
  let stamp := _get_synapse_timestamp (cls st) None in
  let out := (checkout eid ;;; idle d ;;; checkin eid message force) st in
  (forall st' eid' m f a us,
      cls (snd (checkout eid' st')) = cls st' /\
      cls (snd (checkin eid' m f st')) = cls st' /\
      cls (snd (log eid' a st')) = cls st' /\
      cls (snd (idle us st')) = cls st') /\
  stamp = (w_clock w / 1000000 * 1000)%Z /\
  (stamp <= now_ms w < stamp + 1000)%Z /\
  fst out = Return tt /\
  (exists tb2 ver,
      log_table (snd out) = Some tb2 /\
      t_rows tb2 = t_rows tb ++ [(ver, [VStr U; VStr eid; VInt stamp; VInt stamp; message])]) /\
  now_ms (world (snd out)) = ((w_clock w + d) / 1000)%Z /\
  (1000000 <= d -> stamp < now_ms (world (snd out)))%Z.
Proof.
  intros Hget Hlock Hproj Htb Hwf Hfree st stamp out.
  split.
  { intros st' eid' m f a us. repeat split.
    - apply (tame_checkout eid' st').
    - apply (tame_checkin eid' m f st').
    - apply (tame_log eid' a st'). }
  split; [reflexivity|].
  split; [apply stamp_within_second|].
  destruct (checkout_quiet_free w eid e p None tb Hget Hlock Hproj Htb Hwf
              U None None (define_class w) [] [] Hfree) as (cs1 & o1 & Hco & _).
  subst out stamp st. unfold start, init in *. fields.
  rewrite (bind_Return _ _ _ _ _ Hco).
  rewrite (bind_Return (idle d) _ _ tt _ eq_refl). fields.
  set (row1 := checkout_row (define_class w) U eid) in *.
  set (tb1 := appended tb row1) in *.
  set (t := fst (ensure_table w p None)) in *.
  set (w0 := set_table (snd (ensure_table w p None)) t tb1) in *.
  set (w1 := {| w_entities := w_entities w0; w_tables := w_tables w0;
                w_clock := (w_clock w0 + d)%Z |}) in *.
  assert (Hent1 : w_entities w1 = w_entities w) by (apply ensure_table_entities).
  assert (Htabs1 : w_tables w1 = replace_nth t tb1 (w_tables (snd (ensure_table w p None))))
    by reflexivity.
  pose proof (later_get w eid e Hget w1 Hent1) as Hget1.
  pose proof (later_project w e p Hproj w1 Hent1) as Hproj1.
  pose proof (later_ensure w p tb Htb w1 tb1 Htabs1 eq_refl eq_refl (Some t)) as Hens1.
  pose proof (later_table w p tb Htb w1 tb1 Htabs1 eq_refl eq_refl (Some t)) as Htb1.
  assert (Hwf1 : wf_log tb1) by (apply wf_appended; [exact Hwf | reflexivity]).
  assert (Hin1 : In (Z.of_nat (S (t_etag tb)), row1) (t_rows tb1)).
  { cbn [tb1 appended t_rows]. apply in_or_app. right. now left. }
  destruct (find (row_open true U eid) (log_rows asc tb1)) as [row|] eqn:Efind.
  2:{ exfalso. eapply find_exists; [exact Hin1 | apply checkout_row_open | exact Efind]. }
  destruct (find_some_log _ _ _ _ _ _ Efind) as (n & ver & cells & -> & Hn & Hopen).
  destruct (find_own_row _ _ _ _ _ _ _ Hfree Hn Hopen) as [-> ->].
  destruct (checkin_quiet_found w1 eid e p (Some t) tb1 Hget1 Hlock Hproj1 Htb1 Hwf1
              U (Some p) (Some e) (define_class w)
              (cs1 ++ [query_call t asc; CallStoreTable (insert_req t row1)])
              (o1 ++ ["Entity successfully checked out."])
              message force _ _ _ Efind Hn)
    as (cs2 & o2 & Hci & _).
  cbn [app] in Hci |- *. rewrite Hci. fields. rewrite Hens1. cbn [fst snd].
  split; [reflexivity|].
  split.
  - eexists. eexists. split.
    + unfold log_table. fields. unfold set_table. cbn [w_tables].
      eapply replace_nth_nth_error. rewrite Htabs1.
      eapply replace_nth_nth_error. exact Htb.
    + cbn [rewritten t_rows tb1 appended]. rewrite replace_nth_last.
      reflexivity.
  - assert (Hnow : now_ms (set_table w1 t
                    (rewritten tb1 (List.length (t_rows tb))
                       (checked_in_cells (define_class w) message row1)))
                  = ((w_clock w + d) / 1000)%Z).
    { unfold now_ms, w1, w0, set_table. cbn [w_clock].
      now rewrite (ensure_table_clock w p None). }
    split; [exact Hnow|].
    intros Hd. pose proof (stamp_below_now (w_clock w) d Hd) as Hlt.
    rewrite <- Hnow in Hlt. exact Hlt.
Qed.

(** C10, with a minute and a half between the two commands. *)
Lemma timestamp_frozen_at_class_definition_witness :
  (_get_synapse_timestamp (cls (start Demo.alice Demo.w0 [])) None
   < now_ms (world (snd ((checkout "syn3" ;;; idle 90000000 ;;;
                          checkin "syn3" (VStr "done") VNone)
                           (start Demo.alice Demo.w0 [])))))%Z.
Proof.
  destruct (timestamp_frozen_at_class_definition
              Demo.w0 "syn3" Demo.file Demo.project Demo.tb_empty
              Demo.alice (VStr "done") VNone 90000000)
    as (_ & _ & _ & _ & _ & _ & H).
  - reflexivity.
  - reflexivity.
  - reflexivity.
  - reflexivity.
  - split; [reflexivity | constructor].
  - constructor.
  - apply H. lia.
Defined.

(** ** Further properties of the code *)

Lemma column_index_from_first headers name : forall i,
  match column_index_from i headers name with
  | Some n =>
      (i <= n)%nat /\ nth_error headers (n - i) = Some name /\
      forall k, (k < n - i)%nat -> nth_error headers k <> Some name
  | None => ~ In name headers
  end.
Proof.
  induction headers as [|h hs IH]; intros i; cbn [column_index_from].
  - intros [].
  - destruct (String.eqb_spec h name) as [->|Hne].
    + rewrite Nat.sub_diag. repeat split; auto. intros k Hk. lia.
    + specialize (IH (S i)). destruct (column_index_from (S i) hs name) as [n|].
      * destruct IH as (Hle & Hn & Hfirst). split; [lia|].
        replace (n - i)%nat with (S (n - S i)) by lia. split; [exact Hn|].
        intros [|k] Hk; cbn [nth_error]; [congruence|]. apply Hfirst. lia.
      * intros [H|H]; [congruence | exact (IH H)].
Qed.

(** X1.  [_get_table_column_index] returns the position of the first
    header with the given name, and [None] (the function falls off its
    loop) exactly when no header has it. *)
Theorem get_table_column_index_first (headers : list string) (column_name : string) :
  match _get_table_column_index headers column_name with
  | Some n =>
      nth_error headers n = Some column_name /\
      (n < List.length headers)%nat /\
      forall k, (k < n)%nat -> nth_error headers k <> Some column_name
  | None => ~ In column_name headers
  end.
Proof.
  unfold _get_table_column_index.
  pose proof (column_index_from_first headers column_name 0) as H.
  destruct (column_index_from 0 headers column_name) as [n|]; [|exact H].
  rewrite Nat.sub_0_r in H. destruct H as (_ & Hn & Hfirst).
  repeat split; auto. apply nth_error_Some. congruence.
Qed.

(** *** The kind of an entity *)

Lemma split_no_sep sep s : has_char sep s = false -> split sep s = [s].
Proof.
  induction s as [|c s IH]; cbn [has_char split]; [reflexivity|].
  intros H. apply orb_false_iff in H. destruct H as [Hc Hs].
  rewrite Hc, (IH Hs). reflexivity.
Qed.

Lemma split_fields sep pre k :
  has_char sep k = false ->
  exists fs, split sep (pre ++ String sep k) = fs ++ [k] /\ fs <> [].
Proof.
  intros Hk. induction pre as [|c pre IH]; cbn [String.append split].
  - rewrite Ascii.eqb_refl, (split_no_sep _ _ Hk). exists [EmptyString].
    split; [reflexivity | discriminate].
  - destruct IH as (fs & -> & Hfs). destruct (Ascii.eqb c sep).
    + exists (EmptyString :: fs). split; [reflexivity | discriminate].
    + destruct fs as [|f fs]; [congruence|]. cbn [app].
      exists (String c f :: fs). split; [reflexivity | discriminate].
Qed.

Lemma split_last_field sep pre k :
  has_char sep k = false ->
  last_item (split sep (pre ++ String sep k)) = k.
Proof.
  intros Hk. destruct (split_fields sep pre k Hk) as (fs & -> & _).
  unfold last_item. apply last_last.
Qed.

(** X2.  The kind [_load_entity] tests is read off the last dotted
    component of the type string, every ["Entity"] in it removed: whatever
    the package prefix, [Folder], [FolderEntity], [File] and [FileEntity]
    are lockable and [Project] and [TableEntity] are not; a type string
    without a dot is taken whole. *)
Theorem kind_of_last_component (e : Entity) (pre k : string) :
  e_entityType e = (pre ++ String "."%char k)%string ->
  has_char "."%char k = false ->
  kind_of e = replace "Entity" EmptyString k /\
  lockable e = str_in (replace "Entity" EmptyString k) ["Folder"; "File"] /\
  (k = "Folder" \/ k = "FolderEntity" \/ k = "File" \/ k = "FileEntity" ->
   lockable e = true) /\
  (k = "Project" \/ k = "TableEntity" \/ k = "table" -> lockable e = false) /\
  (forall e', has_char "."%char (e_entityType e') = false ->
              kind_of e' = replace "Entity" EmptyString (e_entityType e')).
Proof.
  intros Ht Hk.
  assert (Hkind : kind_of e = replace "Entity" EmptyString k).
  { unfold kind_of. rewrite Ht, (split_last_field _ _ _ Hk). reflexivity. }
  split; [exact Hkind|]. unfold lockable. rewrite Hkind.
  split; [reflexivity|]. split; [|split].
  - intros [-> | [-> | [-> | ->]]]; reflexivity.
  - intros [-> | [-> | ->]]; reflexivity.
  - intros e' He'. unfold kind_of. rewrite (split_no_sep _ _ He'). reflexivity.
Qed.

Lemma kind_of_last_component_witness :
  kind_of Demo.file = "File" /\ lockable Demo.file = true.
Proof.
  destruct (kind_of_last_component Demo.file "org.sagebionetworks.repo.model" "FileEntity"
                                   eq_refl eq_refl) as (Hk & _ & Hl & _).
  split; [exact Hk | apply Hl; auto].
Defined.

(** *** The walk to the project *)

(** X3.  Whatever the service and the other clients do, when
    [_load_project_for] returns, what it returns is a Project; on the way
    it only calls [get], at least once and at most once per level of
    recursion, prints nothing and leaves the object alone. *)
Theorem load_project_for_returns_project
        (depth : nat) (child : Entity) (st st' : State) (p : Entity) :
  _load_project_for depth child st = (Return p, st') ->
  is_Project p = true /\
  self st' = self st /\
  stdout st' = stdout st /\
  exists ids,
    calls st' = calls st ++ map CallGet ids /\
    (1 <= List.length ids <= depth)%nat /\
    hd_error ids = Some (e_parentId child).
Proof.
  revert child st. induction depth as [|k IH]; intros child st; cbn [_load_project_for].
  - discriminate.
  - unfold bind at 1. unfold remote at 1.
    destruct (get _ (e_parentId child)) as [parent|e]; [|discriminate].
    destruct (is_Project parent) eqn:Hp; cbn [negb].
    + intros [= <- <-]. cbn [self stdout calls].
      repeat split; auto. exists [e_parentId child]. cbn. repeat split; auto; lia.
    + intros H. destruct (IH _ _ H) as (Hproj & Hself & Hout & ids & Hcalls & Hlen & _).
      cbn [self stdout calls] in *.
      repeat split; auto. exists (e_parentId child :: ids). cbn [map List.length hd_error].
      rewrite Hcalls, <- app_assoc. repeat split; auto; lia.
Qed.

Lemma load_project_for_returns_project_witness :
  is_Project Demo.project = true.
Proof.
  destruct (load_project_for_returns_project
              recursion_limit Demo.file (start Demo.alice Demo.w0 [])
              (snd (_load_project_for recursion_limit Demo.file (start Demo.alice Demo.w0 [])))
              Demo.project) as (H & _).
  - vm_compute. reflexivity.
  - exact H.
Defined.

Lemma nearest_project_pos w child n p : nearest_project w child n p -> (1 <= n)%nat.
Proof. destruct 1; lia. Qed.

(** X4.  Without interference, [_load_project_for] returns the nearest
    ancestor that is a Project after one [get] per level when it is within
    the recursion limit, and raises [RecursionError] after [depth] calls
    when it is further up (or the parents form a cycle); a [get] that
    fails ends the walk with its exception.  The service is not changed. *)
Theorem load_project_for_nearest
        (depth : nat) (child : Entity) (st : State) (n : nat) (p : Entity) :
  schedule st = [] ->
  nearest_project (world st) child n p ->
  (n <= depth ->
   exists ids,
     _load_project_for depth child st
     = (Return p, mkState (self st) (cls st) (world st) [] (calls st ++ map CallGet ids)
                          (stdout st)) /\
     List.length ids = n) /\
  (depth < n ->
   exists ids,
     _load_project_for depth child st
     = (Raise RecursionError,
        mkState (self st) (cls st) (world st) [] (calls st ++ map CallGet ids) (stdout st)) /\
     List.length ids = depth).
Proof.
  intros Hs Hnp. destruct st as [s c w sch cs out]. cbn in Hs, Hnp. subst sch.
  cbn [self cls world calls stdout].
  revert depth cs. induction Hnp as [child parent Hget Hp | child parent n p Hget Hp Hnp IH];
    intros depth cs.
  - split.
    + intros Hle. destruct depth as [|k]; [lia|]. cbn [_load_project_for].
      unfold bind, remote. cbn [schedule world self cls calls stdout tl].
      rewrite Hget, Hp. cbn [negb]. exists [e_parentId child]. split; reflexivity.
    + intros Hlt. assert (depth = 0%nat) by lia. subst depth.
      exists []. cbn. rewrite app_nil_r. split; reflexivity.
  - split.
    + intros Hle. destruct depth as [|k]; [lia|]. cbn [_load_project_for].
      unfold bind at 1. unfold remote at 1. cbn [schedule world self cls calls stdout tl].
      rewrite Hget, Hp. cbn [negb].
      destruct (IH k (cs ++ [CallGet (e_parentId child)])) as [Hok _].
      destruct Hok as (ids & -> & Hlen); [lia|].
      exists (e_parentId child :: ids). cbn [map List.length]. rewrite <- app_assoc.
      split; [reflexivity | lia].
    + intros Hlt. destruct depth as [|k].
      * exists []. cbn. rewrite app_nil_r. split; reflexivity.
      * cbn [_load_project_for].
        unfold bind at 1. unfold remote at 1. cbn [schedule world self cls calls stdout tl].
        rewrite Hget, Hp. cbn [negb].
        destruct (IH k (cs ++ [CallGet (e_parentId child)])) as [_ Hko].
        destruct Hko as (ids & -> & Hlen); [lia|].
        exists (e_parentId child :: ids). cbn [map List.length]. rewrite <- app_assoc.
        split; [reflexivity | lia].
Qed.

Lemma load_project_for_nearest_witness :
  fst (_load_project_for recursion_limit Demo.file (start Demo.alice Demo.w0 []))
  = Return Demo.project.
Proof.
  destruct (load_project_for_nearest recursion_limit Demo.file (start Demo.alice Demo.w0 [])
                                     2 Demo.project) as [H _].
  - reflexivity.
  - eapply np_above; [reflexivity | reflexivity |].
    eapply np_parent; reflexivity.
  - destruct H as (ids & -> & _); [unfold recursion_limit; lia | reflexivity].
Defined.

(** X5.  An entity that is its own parent (no Project above it) exhausts
    the recursion: [_load_project_for] raises [RecursionError] after
    exactly [depth] calls of [get], and a missing parent ends the walk
    with the exception of the first [get]. *)
Theorem load_project_for_fails (depth : nat) (child : Entity) (st : State) :
  schedule st = [] ->
  (get (world st) (e_parentId child) = Return child -> is_Project child = false ->
   _load_project_for depth child st
   = (Raise RecursionError,
      mkState (self st) (cls st) (world st) []
              (calls st ++ repeat (CallGet (e_parentId child)) depth) (stdout st))) /\
  (forall e, get (world st) (e_parentId child) = Raise e -> (1 <= depth)%nat ->
   _load_project_for depth child st
   = (Raise e,
      mkState (self st) (cls st) (world st) []
              (calls st ++ [CallGet (e_parentId child)]) (stdout st))).
Proof.
  intros Hs. destruct st as [s c w sch cs out]. cbn in Hs. subst sch.
  cbn [self cls world calls stdout]. split.
  - intros Hget Hp. revert cs. induction depth as [|k IH]; intros cs.
    + cbn. now rewrite app_nil_r.
    + cbn [_load_project_for repeat].
      unfold bind at 1. unfold remote at 1. cbn [schedule world self cls calls stdout tl].
      rewrite Hget, Hp. cbn [negb]. rewrite IH, <- app_assoc. reflexivity.
  - intros e Hget Hd. destruct depth as [|k]; [lia|]. cbn [_load_project_for].
    unfold bind, remote. cbn [schedule world self cls calls stdout tl].
    rewrite Hget. reflexivity.
Qed.

Lemma load_project_for_fails_witness :
  fst (_load_project_for recursion_limit Annex.orphan (start Demo.alice Annex.w_orphan []))
  = Raise RecursionError.
Proof.
  destruct (load_project_for_fails recursion_limit Annex.orphan
                                   (start Demo.alice Annex.w_orphan []) eq_refl) as [H _].
  rewrite H; reflexivity.
Defined.

(** *** Errors on the way *)

(** X6.  When the [get] of the entity fails, each of the three commands
    ends with that exception after this one call: only the first progress
    line is printed, the object keeps its attributes and the service is
    as the other clients left it. *)
Theorem command_unknown_entity (args : Args) (st : State) (e : exn) :
  get (seen st) (a_entity_id args) = Raise e ->
  main args st
  = (Raise e,
     mkState (self st) (cls st) (seen st) (tl (schedule st))
             (calls st ++ [CallGet (a_entity_id args)])
             (stdout st ++ ["Loading Entity..."])).
Proof.
  intros Hget.
  assert (Hload : forall msg,
             _load_entity (a_entity_id args) msg st
             = (Raise e,
                mkState (self st) (cls st) (seen st) (tl (schedule st))
                        (calls st ++ [CallGet (a_entity_id args)])
                        (stdout st ++ ["Loading Entity..."]))).
  { intros msg. unfold _load_entity.
    unfold bind at 1. unfold print at 1. unfold bind at 1. unfold remote at 1.
    cbn [schedule world self cls calls stdout tl]. unfold seen in Hget. rewrite Hget.
    unfold seen. reflexivity. }
  unfold main. destruct (a_command args).
  - unfold checkout. apply bind_Raise, Hload.
  - unfold checkin. apply bind_Raise, Hload.
  - unfold log. apply bind_Raise, Hload.
Qed.

Lemma command_unknown_entity_witness :
  fst (main (mkArgs cmd_checkout "syn404" VNone false VNone) (start Demo.alice Demo.w0 []))
  = Raise (SynapseHTTPError 404).
Proof.
  rewrite (command_unknown_entity (mkArgs cmd_checkout "syn404" VNone false VNone)
                                  (start Demo.alice Demo.w0 []) (SynapseHTTPError 404) eq_refl).
  reflexivity.
Defined.

Lemma with_row_ids_length i rows : List.length (with_row_ids i rows) = List.length rows.
Proof.
  revert i. induction rows as [|[v c] rows IH]; intros i; cbn; [reflexivity|].
  now rewrite IH.
Qed.

(** X7.  On a table that has the reserved name but lacks one of the
    columns [user], [entity], [checked_in], [_find_checked_out_row] still
    answers "no row" while the table is empty, and raises [TypeError] (an
    index that is [None]) on the first row once it is not, whatever
    [by_user] says. *)
Theorem find_checked_out_row_missing_column
        (by_user : bool) (st : State) (t : tid) (tb : TableData) :
  schedule st = [] ->
  _table (self st) = Some t ->
  nth_error (w_tables (world st)) t = Some tb ->
  In SYT_COL_CHECKED_OUT (t_columns tb) ->
  Forall (fun r => List.length (snd r) = List.length (t_columns tb)) (t_rows tb) ->
  (~ In SYT_COL_USER (t_columns tb) \/ ~ In SYT_COL_ENTITY (t_columns tb) \/
   ~ In SYT_COL_CHECKED_IN (t_columns tb)) ->
  let after := mkState (self st) (cls st) (world st) []
                       (calls st ++ [query_call t asc]) (stdout st) in
  (t_rows tb = [] ->
   _find_checked_out_row by_user st = (Return (None, t_etag tb, query_headers tb), after)) /\
  (t_rows tb <> [] ->
   _find_checked_out_row by_user st = (Raise TypeError, after)).
Proof.
  intros Hs Ht Hn Hco Hrows Hmiss after.
  destruct st as [[o pr en cur] c w sch cs out]. cbn in Hs, Ht, Hn. subst sch cur.
  subst after. cbn [self cls world calls stdout].
  assert (Hidx : exists k, index_of SYT_COL_CHECKED_OUT (query_headers tb) = Some k).
  { unfold query_headers. cbn [index_of String.eqb Ascii.eqb Bool.eqb SYT_COL_CHECKED_OUT].
    clear -Hco. induction (t_columns tb) as [|h hs IH]; [contradiction|].
    cbn [index_of]. destruct (String.eqb_spec h SYT_COL_CHECKED_OUT) as [->|Hne].
    - cbn. eauto.
    - destruct Hco as [Hco|Hco]; [congruence|].
      destruct (IH Hco) as [k Hk]. cbn in Hk.
      destruct (index_of SYT_COL_CHECKED_OUT hs) as [j|]; [cbn; eauto | discriminate]. }
  destruct Hidx as [k Hk].
  assert (Hrun : _find_checked_out_row by_user
                   (mkState (mkSelf o pr en (Some t)) c w [] cs out)
                 = match find_loop by_user o en
                           (_get_table_column_index (query_headers tb) SYT_COL_USER)
                           (_get_table_column_index (query_headers tb) SYT_COL_ENTITY)
                           (_get_table_column_index (query_headers tb) SYT_COL_CHECKED_IN)
                           (sort_by (row_leb asc k) (with_row_ids 0 (t_rows tb))) with
                   | Return r =>
                       (Return (r, t_etag tb, query_headers tb),
                        mkState (mkSelf o pr en (Some t)) c w []
                                (cs ++ [query_call t asc]) out)
                   | Raise e =>
                       (Raise e,
                        mkState (mkSelf o pr en (Some t)) c w []
                                (cs ++ [query_call t asc]) out)
                   end).
  { unfold _find_checked_out_row, _load_syt_log.
    unfold bind, get_self, attr, ret, remote, lift, tableQuery.
    cbn [schedule world self cls calls stdout tl fst snd _table _user_ownerId _entity].
    rewrite Hn, Hk. cbn [q_rows q_headers q_etag fst snd].
    destruct (find_loop _ _ _ _ _ _ _); reflexivity. }
  rewrite Hrun. clear Hrun. split.
  - intros Hempty. rewrite Hempty. reflexivity.
  - intros Hne.
    assert (Hperm : Permutation (with_row_ids 0 (t_rows tb))
                                (sort_by (row_leb asc k) (with_row_ids 0 (t_rows tb))))
      by apply sort_by_perm.
    destruct (sort_by (row_leb asc k) (with_row_ids 0 (t_rows tb))) as [|r rest] eqn:E.
    + apply Permutation_length in Hperm. rewrite with_row_ids_length in Hperm.
      destruct (t_rows tb); [congruence | discriminate].
    + assert (Hlen : List.length r = List.length (query_headers tb)).
      { assert (Hin : In r (with_row_ids 0 (t_rows tb))).
        { apply (Permutation_in _ (Permutation_sym Hperm)). now left. }
        destruct (with_row_ids_cells _ _ _ Hin) as (rid & ver & cells & -> & Hc).
        rewrite Forall_forall in Hrows. specialize (Hrows _ Hc). cbn in Hrows |- *.
        now rewrite Hrows. }
      assert (Hcol : forall name j,
                 _get_table_column_index (query_headers tb) name = Some j ->
                 name <> "ROW_ID" -> name <> "ROW_VERSION" ->
                 In name (t_columns tb) /\ exists v, nth_error r j = Some v).
      { intros name j Hj H1 H2.
        pose proof (get_table_column_index_first (query_headers tb) name) as H.
        rewrite Hj in H. destruct H as (Hnth & Hlt & _). split.
        - apply nth_error_In in Hnth. destruct Hnth as [H|[H|H]]; congruence.
        - destruct (nth_error r j) as [v|] eqn:E'; [eauto|].
          apply nth_error_None in E'. lia. }
      cbn [find_loop].
      destruct (_get_table_column_index (query_headers tb) SYT_COL_USER) as [ju|] eqn:Eu;
        [|reflexivity].
      destruct (Hcol _ _ Eu ltac:(discriminate) ltac:(discriminate)) as (Hinu & u & Hu).
      cbn [getitem]. rewrite Hu.
      destruct (_get_table_column_index (query_headers tb) SYT_COL_ENTITY) as [je|] eqn:Ee;
        [|reflexivity].
      destruct (Hcol _ _ Ee ltac:(discriminate) ltac:(discriminate)) as (Hine & x & Hx).
      cbn [getitem]. rewrite Hx.
      destruct (_get_table_column_index (query_headers tb) SYT_COL_CHECKED_IN) as [jc|] eqn:Ec;
        [|reflexivity].
      destruct (Hcol _ _ Ec ltac:(discriminate) ltac:(discriminate)) as (Hinc & _).
      tauto.
Qed.

Lemma find_checked_out_row_missing_column_witness :
  fst (_find_checked_out_row false Annex.st_short) = Raise TypeError.
Proof.
  destruct (find_checked_out_row_missing_column false Annex.st_short 0%nat Annex.tb_short)
    as [_ H].
  - reflexivity.
  - reflexivity.
  - reflexivity.
  - cbn. auto.
  - repeat constructor.
  - right. right. cbn. intros [H|[H|[H|[]]]]; discriminate.
  - rewrite H; [reflexivity | discriminate].
Defined.

(** X8.  Whatever the service answers and the other clients do, one run of
    [main] makes at most one table query and at most one row write, [log]
    makes no row write at all, and the default time stamp of the class is
    the same after the run. *)
Theorem main_bounded_calls (args : Args) (st : State) :
  cls (snd (main args st)) = cls st /\
  exists cs,
    calls (snd (main args st)) = calls st ++ cs /\
    (count_calls is_query cs <= 1)%nat /\
    (count_calls is_row_write cs <= 1)%nat /\
    (a_command args = cmd_log -> count_calls is_row_write cs = 0%nat).
Proof.
  unfold main. destruct (a_command args).
  - destruct (tame_checkout (a_entity_id args) st) as (Hc & cs & H1 & H2 & H3).
    split; [exact Hc|]. exists cs. repeat split; auto. discriminate.
  - destruct (tame_checkin (a_entity_id args) (a_message args) (a_force args) st)
      as (Hc & cs & H1 & H2 & H3).
    split; [exact Hc|]. exists cs. repeat split; auto. discriminate.
  - destruct (tame_log (a_entity_id args) (a_all args) st) as (Hc & cs & H1 & H2 & H3).
    split; [exact Hc|]. exists cs. repeat split; auto; lia.
Qed.

(** *** Providing the log table *)

Lemma find_named_children_first name pid ts : forall i t,
  find_named name (children_from pid i ts) = Some t ->
  forall j tbj, (i <= j < t)%nat -> nth_error ts (j - i) = Some tbj ->
                t_parentId tbj = pid -> t_name tbj <> name.
Proof.
  induction ts as [|tb ts IH]; intros i t; cbn [children_from find_named]; [discriminate|].
  destruct (String.eqb_spec (t_parentId tb) pid) as [Hp|Hp]; cbn [find_named].
  - destruct (String.eqb_spec (t_name tb) name) as [Hn|Hn].
    + intros [= <-] j tbj Hj. lia.
    + intros H j tbj Hj Hnth Hpj.
      destruct (j - i)%nat as [|k] eqn:E.
      * cbn in Hnth. congruence.
      * cbn in Hnth. apply (IH _ _ H j tbj); [lia | | exact Hpj].
        replace (j - S i)%nat with k by lia. exact Hnth.
  - intros H j tbj Hj Hnth Hpj.
    destruct (j - i)%nat as [|k] eqn:E.
    + cbn in Hnth. congruence.
    + cbn in Hnth.
      assert (Hle : (S i <= t)%nat).
      { apply find_named_In in H. apply children_from_names in H.
        destruct H as (_ & _ & H & _). exact H. }
      apply (IH _ _ H j tbj); [lia | | exact Hpj].
      replace (j - S i)%nat with k by lia. exact Hnth.
Qed.

Lemma find_named_children_none name pid ts : forall i,
  find_named name (children_from pid i ts) = None ->
  forall tb, In tb ts -> t_parentId tb = pid -> t_name tb <> name.
Proof.
  induction ts as [|tb0 ts IH]; intros i H tb Hin Hp Hn; [contradiction|].
  cbn [children_from] in H. destruct Hin as [->|Hin].
  - apply String.eqb_eq in Hp. rewrite Hp in H. cbn [find_named] in H.
    apply String.eqb_eq in Hn. rewrite Hn in H. discriminate.
  - destruct (String.eqb (t_parentId tb0) pid); cbn [find_named] in H.
    + destruct (String.eqb (t_name tb0) name); [discriminate|]. exact (IH _ H tb Hin Hp Hn).
    + exact (IH _ H tb Hin Hp Hn).
Qed.

Lemma ensure_access_log_run p o pr en cur c w cs out :
  exists cs' out',
    _ensure_access_log p (mkState (mkSelf o pr en cur) c w [] cs out)
    = (Return tt,
       mkState (mkSelf o pr en (Some (fst (ensure_table w p cur)))) c
               (snd (ensure_table w p cur)) [] (cs ++ cs') (out ++ out'))
    /\ count_calls is_row_write cs' = 0%nat
    /\ count_calls is_provision cs'
       = match find_named SYT_TABLE_NAME (getChildren w p), cur with
         | None, None => 1%nat
         | _, _ => 0%nat
         end.
Proof.
  unfold _ensure_access_log, ensure_table.
  unfold bind, print, remote, get_self, set_table_attr, set_self, ret.
  fields.
  destruct (find_named SYT_TABLE_NAME (getChildren w p)) as [i|] eqn:E.
  - destruct (find_named_table _ _ _ E) as (tb & Hn & _).
    unfold bind, print, remote, get_self, set_table_attr, set_self, ret, get_table.
    fields. rewrite Hn. fields.
    eexists. eexists. rewrite <- ?app_assoc. split; [reflexivity|]. split; reflexivity.
  - fields. destruct cur as [t|].
    + eexists. eexists. rewrite <- ?app_assoc. split; [reflexivity|]. split; reflexivity.
    + unfold bind, print, remote, get_self, set_table_attr, set_self, ret, store_schema.
      fields.
      eexists. eexists. rewrite <- ?app_assoc. split; [reflexivity|]. split; reflexivity.
Qed.

(** X9.  Without interference and on an object that holds no table,
    [_ensure_access_log] binds [self._table] to the first table of the
    project named [syt_log]; only when the project has none does it create
    one, empty and with the five columns, at the end of the service's
    tables.  Every table that existed is left as it was, no row is
    written, and running it again changes nothing. *)
Theorem ensure_access_log_reuses_or_creates (p : Entity) (st : State) :
  schedule st = [] ->
  _table (self st) = None ->
  let out := _ensure_access_log p st in
  let again := _ensure_access_log p (snd out) in
  fst out = Return tt /\
  w_entities (world (snd out)) = w_entities (world st) /\
  (forall i tb0, nth_error (w_tables (world st)) i = Some tb0 ->
                 nth_error (w_tables (world (snd out))) i = Some tb0) /\
  (exists t tb,
      _table (self (snd out)) = Some t /\
      nth_error (w_tables (world (snd out))) t = Some tb /\
      t_name tb = SYT_TABLE_NAME /\ t_parentId tb = e_id p /\
      (forall j tbj, (j < t)%nat -> nth_error (w_tables (world (snd out))) j = Some tbj ->
                     t_parentId tbj = e_id p -> t_name tbj <> SYT_TABLE_NAME) /\
      ((exists tb0, In tb0 (w_tables (world st)) /\
                    t_parentId tb0 = e_id p /\ t_name tb0 = SYT_TABLE_NAME) ->
       world (snd out) = world st) /\
      ((forall tb0, In tb0 (w_tables (world st)) -> t_parentId tb0 = e_id p ->
                    t_name tb0 <> SYT_TABLE_NAME) ->
       w_tables (world (snd out)) = w_tables (world st) ++ [tb] /\
       t_columns tb = SYT_COLUMNS /\ t_rows tb = [])) /\
  (exists cs, calls (snd out) = calls st ++ cs /\
              count_calls is_row_write cs = 0%nat /\
              (count_calls is_provision cs <= 1)%nat) /\
  fst again = Return tt /\
  world (snd again) = world (snd out) /\
  self (snd again) = self (snd out) /\
  (exists cs, calls (snd again) = calls (snd out) ++ cs /\
              count_calls is_row_write cs = 0%nat /\
              count_calls is_provision cs = 0%nat).
Proof.
  intros Hs Ht out again.
  destruct st as [[o pr en cur] c w sch cs out0]. cbn in Hs, Ht. subst sch cur.
  destruct (ensure_access_log_run p o pr en None c w cs out0) as (cs1 & o1 & Hrun & Hw1 & Hp1).
  subst again out. rewrite Hrun. cbn [fst snd self world calls _table].
  destruct (ensure_access_log_run p o pr en (Some (fst (ensure_table w p None))) c
              (snd (ensure_table w p None)) (cs ++ cs1) (out0 ++ o1))
    as (cs2 & o2 & Hrun2 & Hw2 & Hp2).
  rewrite Hrun2. cbn [fst snd self world calls _table].
  pose proof (ensure_table_found w p) as Hfound.
  rewrite Hfound in Hp2.
  rewrite (ensure_table_known _ _ _ (Some (fst (ensure_table w p None))) Hfound).
  cbn [fst snd].
  split; [reflexivity|].
  split; [apply ensure_table_entities|].
  split.
  { intros i tb0 Hi. unfold ensure_table.
    destruct (find_named _ _); cbn [snd store_schema w_tables]; [exact Hi|].
    rewrite nth_error_app1; [exact Hi|]. apply nth_error_Some. congruence. }
  split.
  { destruct (find_named_table _ _ _ Hfound) as (tb & Hn & Hname & Hpar).
    exists (fst (ensure_table w p None)), tb.
    split; [reflexivity|]. split; [exact Hn|]. split; [exact Hname|]. split; [exact Hpar|].
    split.
    { intros j tbj Hj Hnj Hpj.
      apply (find_named_children_first _ _ _ _ _ Hfound j tbj); [lia | | exact Hpj].
      now rewrite Nat.sub_0_r. }
    split.
    - intros (tb0 & Hin & Hp0 & Hn0). unfold ensure_table.
      destruct (find_named SYT_TABLE_NAME (getChildren w p)) eqn:E; [reflexivity|].
      exfalso. exact (find_named_children_none _ _ _ _ E tb0 Hin Hp0 Hn0).
    - intros Hnone. unfold ensure_table in Hn |- *.
      destruct (find_named SYT_TABLE_NAME (getChildren w p)) as [i|] eqn:E.
      + exfalso. destruct (find_named_table _ _ _ E) as (tb0 & Hn0 & Hname0 & Hpar0).
        apply (Hnone tb0); auto. eapply nth_error_In; eauto.
      + cbn [fst snd store_schema w_tables] in Hn |- *.
        rewrite nth_error_app2, Nat.sub_diag in Hn by lia. cbn in Hn.
        inversion Hn; subst tb. cbn. auto. }
  split.
  { exists cs1. split; [reflexivity|]. split; [exact Hw1|]. rewrite Hp1.
    destruct (find_named _ _); lia. }
  split; [reflexivity|]. split; [reflexivity|]. split; [reflexivity|].
  exists cs2. auto.
Qed.

Lemma ensure_access_log_reuses_or_creates_witness :
  w_tables (world (snd (_ensure_access_log Demo.project (start Demo.alice Demo.w0 []))))
  = [Demo.tb_empty].
Proof.
  destruct (ensure_access_log_reuses_or_creates Demo.project (start Demo.alice Demo.w0 [])
                                                eq_refl eq_refl)
    as (_ & _ & _ & (t & tb & _ & _ & _ & _ & _ & _ & H) & _).
  reflexivity.
Defined.

(** *** One object, two projects *)

(** X10.  The table an object has bound is kept when the project of the
    next entity has no log table: after [log] on an entity of a project
    with a log table, [checkout] in the same run on an entity of a project
    without one writes the new lock into the first project's table and
    creates no table. *)
Theorem stale_table_across_projects
        (w : World) (eidA eidB : string) (eA pA eB pB : Entity) (tA : tid)
        (tb : TableData) (U : string) (show_all : bool) :
  get w eidA = Return eA -> lockable eA = true ->
  project_of recursion_limit w eA = Return pA ->
  find_named SYT_TABLE_NAME (getChildren w pA) = Some tA ->
  nth_error (w_tables w) tA = Some tb ->
  wf_log tb ->
  get w eidB = Return eB -> lockable eB = true ->
  project_of recursion_limit w eB = Return pB ->
  find_named SYT_TABLE_NAME (getChildren w pB) = None ->
  Forall (fun r => open_lock false U eidB (snd r) = false) (t_rows tb) ->
  let st := start U w [] in
  let out := (log eidA show_all ;;; checkout eidB) st in
  fst out = Return tt /\
  _table (self (snd out)) = Some tA /\
  t_parentId tb = e_id pA /\
  w_tables (world (snd out))
  = replace_nth tA (appended tb (checkout_row (cls st) U eidB)) (w_tables w) /\
  List.length (w_tables (world (snd out))) = List.length (w_tables w) /\
  find_named SYT_TABLE_NAME (getChildren (world (snd out)) pB) = None.
Proof.
  intros HgetA HlockA HprojA HfoundA HtbA Hwf HgetB HlockB HprojB HnoneB Hfree st out.
  pose proof (ensure_table_known w pA tA None HfoundA) as HensA.
  assert (HtbA' : nth_error (w_tables (snd (ensure_table w pA None)))
                            (fst (ensure_table w pA None)) = Some tb)
    by (rewrite HensA; exact HtbA).
  destruct (log_quiet w eidA eA pA None tb U None None (define_class w) [] [] show_all
                      HgetA HlockA HprojA HtbA' Hwf) as (cs1 & o1 & Hlog & Hcs1 & _).
  rewrite HensA in Hlog. cbn [fst snd] in Hlog.
  assert (HensB : ensure_table w pB (Some tA) = (tA, w)).
  { unfold ensure_table. now rewrite HnoneB. }
  assert (HtbB : nth_error (w_tables (snd (ensure_table w pB (Some tA))))
                           (fst (ensure_table w pB (Some tA))) = Some tb)
    by (rewrite HensB; exact HtbA).
  destruct (checkout_quiet_free w eidB eB pB (Some tA) tb HgetB HlockB HprojB HtbB Hwf
              U (Some pA) (Some eA) (define_class w)
              ([] ++ cs1 ++ [query_call tA desc])
              ([] ++ o1 ++ flat_map block_lines
                                    (filter (shown show_all eidA) (log_rows desc tb)))
              Hfree) as (cs2 & o2 & Hco & Hcs2).
  rewrite HensB in Hco. cbn [fst snd] in Hco.
  subst out st. unfold start, init.
  rewrite (bind_Return _ _ _ _ _ Hlog), Hco.
  cbn [fst snd self world calls _table cls].
  split; [reflexivity|]. split; [reflexivity|].
  split. { destruct (find_named_table _ _ _ HfoundA) as (tb' & Hn & _ & Hp). congruence. }
  split; [reflexivity|].
  split; [apply replace_nth_length|].
  unfold getChildren, set_table. cbn [w_tables].
  rewrite (children_from_replace (e_id pB) (w_tables w) 0 tA tb
             (appended tb (checkout_row (define_class w) U eidB)) HtbA eq_refl eq_refl).
  exact HnoneB.
Qed.

Lemma stale_table_across_projects_witness :
  option_map (fun tb => List.length (t_rows tb))
             (nth_error (w_tables (world (snd ((log "syn3" false ;;; checkout "syn11")
                                                 (start Demo.bob Annex.w [])))))
                        0)
  = Some 5%nat.
Proof.
  destruct (stale_table_across_projects
              Annex.w "syn3" "syn11" Demo.file Demo.project Annex.file Annex.project
              0%nat Demo.tb_multi Demo.bob false)
    as (_ & _ & _ & H & _).
  - reflexivity.
  - reflexivity.
  - reflexivity.
  - reflexivity.
  - reflexivity.
  - split; [reflexivity | repeat constructor].
  - reflexivity.
  - reflexivity.
  - reflexivity.
  - reflexivity.
  - repeat constructor.
  - rewrite H. reflexivity.
Defined.

(** *** Checking out and in *)

Lemma checkout_twice_one_open_row_witness :
  world (snd (checkout "syn3" (start Demo.bob
                (world (snd (checkout "syn3" (start Demo.alice Demo.w0 [])))) [])))
  = world (snd (checkout "syn3" (start Demo.alice Demo.w0 []))).
Proof.
  destruct (checkout_twice_one_open_row Demo.w0 "syn3" Demo.file Demo.project Demo.tb_empty
                                        Demo.alice Demo.bob)
    as (_ & _ & _ & _ & H & _).
  - reflexivity.
  - reflexivity.
  - reflexivity.
  - reflexivity.
  - split; [reflexivity | constructor].
  - constructor.
  - exact H.
Defined.

Lemma checkin_rewrites_only_its_row_witness :
  fst (checkin "syn3" (VStr "v2") VNone (start Demo.alice Demo.w_multi [])) = Return tt.
Proof.
  destruct (checkin_rewrites_only_its_row
              Demo.w_multi "syn3" Demo.file Demo.project Demo.tb_multi Demo.alice
              (VStr "v2") VNone 2%nat 3%Z
              [VStr Demo.alice; VStr "syn3"; VInt 200000; VNone; VNone])
    as (H & _).
  - reflexivity.
  - reflexivity.
  - reflexivity.
  - reflexivity.
  - split; [reflexivity | repeat constructor].
  - reflexivity.
  - exact H.
Defined.

(** *** What the commands keep *)

Lemma find_none_rows b o eid d tb :
  find (row_open b o eid) (log_rows d tb) = None ->
  Forall (fun r => open_lock b o eid (snd r) = false) (t_rows tb).
Proof.
  intros E. apply Forall_forall. intros [ver cells] Hin. cbn [snd].
  destruct (In_with_row_ids _ 0%nat _ _ Hin) as [rid Hr].
  apply (Permutation_in _ (log_rows_perm d tb)) in Hr.
  exact (find_none _ _ E _ Hr).
Qed.

Lemma count_open_appended x tb cells :
  count_open x (appended tb cells)
  = (count_open x tb + if open_lock false EmptyString x cells then 1 else 0)%nat.
Proof.
  unfold count_open. cbn [appended t_rows]. rewrite filter_app, length_app.
  cbn [filter snd]. destruct (open_lock false EmptyString x cells); reflexivity.
Qed.

Lemma filter_replace_closed {A} (f : A -> bool) (y : A) (l : list A) : forall n,
  f y = false ->
  (List.length (filter f (replace_nth n y l)) <= List.length (filter f l))%nat.
Proof.
  induction l as [|a l IH]; intros [|n] Hy; cbn [replace_nth filter]; try lia.
  - rewrite Hy. destruct (f a); cbn; lia.
  - specialize (IH n Hy). destruct (f a); cbn; lia.
Qed.

Lemma count_open_rewritten x tb n cells :
  open_lock false EmptyString x cells = false ->
  (count_open x (rewritten tb n cells) <= count_open x tb)%nat.
Proof.
  intros H. unfold count_open. cbn [rewritten t_rows].
  apply (filter_replace_closed (fun r => open_lock false EmptyString x (snd r))). exact H.
Qed.

Lemma Forall_replace_nth {A} (P : A -> Prop) (y : A) (l : list A) : forall n,
  P y -> Forall P l -> Forall P (replace_nth n y l).
Proof.
  induction l as [|a l IH]; intros [|n] Hy Hl; cbn [replace_nth]; auto;
    inversion Hl; subst; constructor; auto.
Qed.

Lemma wf_rewritten tb n cells :
  wf_log tb -> List.length cells = 5%nat -> wf_log (rewritten tb n cells).
Proof.
  intros [Hc Hr] Hl. split; [exact Hc|]. cbn [rewritten t_rows].
  apply Forall_replace_nth; auto.
Qed.

Lemma count_open_zero x tb :
  Forall (fun r => open_lock false EmptyString x (snd r) = false) (t_rows tb) ->
  count_open x tb = 0%nat.
Proof.
  intros H. unfold count_open.
  now rewrite (filter_all_false (fun r => open_lock false EmptyString x (snd r)) _ H).
Qed.

Lemma checkout_row_entity c o eid x :
  open_lock false EmptyString x (checkout_row c o eid) = String.eqb eid x.
Proof.
  unfold open_lock, checkout_row, rec_entity, rec_checked_in. cbn [nth negb orb eqb andb].
  now rewrite andb_true_r.
Qed.

(** X13.  Run by a fresh process without interference on a lockable
    entity, each of the three commands returns normally and keeps the log
    sound: the table keeps its five columns and five cells per row, no row
    disappears, and if no entity had two open locks before, none has
    after. *)
Theorem command_keeps_log_sound
        (w : World) (e p : Entity) (tb : TableData) (U : string) (args : Args) :
  get w (a_entity_id args) = Return e ->
  lockable e = true ->
  project_of recursion_limit w e = Return p ->
  nth_error (w_tables (snd (ensure_table w p None))) (fst (ensure_table w p None)) = Some tb ->
  wf_log tb ->
  let out := main args (start U w []) in
  fst out = Return tt /\
  exists tb',
    log_table (snd out) = Some tb' /\
    wf_log tb' /\
    (List.length (t_rows tb) <= List.length (t_rows tb'))%nat /\
    (single_lock tb -> single_lock tb') /\
    (a_command args = cmd_log -> tb' = tb).
Proof.
  intros Hget Hlock Hproj Htb Hwf out.
  assert (Hlt : forall tb', nth_error (replace_nth (fst (ensure_table w p None)) tb'
                                         (w_tables (snd (ensure_table w p None))))
                                      (fst (ensure_table w p None)) = Some tb').
  { intros tb'. eapply replace_nth_nth_error. exact Htb. }
  subst out. unfold main, start, init. set (eid := a_entity_id args) in *.
  destruct (a_command args) eqn:Ecmd.
  - (* checkout *)
    destruct (find (row_open false U eid) (log_rows asc tb)) as [row|] eqn:Efind.
    + destruct (checkout_quiet_taken w eid e p None tb Hget Hlock Hproj Htb Hwf
                  U None None (define_class w) [] [] row Efind) as (cs1 & o1 & -> & _).
      split; [reflexivity|]. exists tb. unfold log_table. fields.
      repeat split; auto; try apply Hwf; try discriminate.
    + pose proof (find_none_rows _ _ _ _ _ Efind) as Hfree.
      destruct (checkout_quiet_free w eid e p None tb Hget Hlock Hproj Htb Hwf
                  U None None (define_class w) [] [] Hfree) as (cs1 & o1 & -> & _).
      split; [reflexivity|]. eexists. unfold log_table. fields. unfold set_table.
      cbn [w_tables]. split; [apply Hlt|].
      split; [apply wf_appended; [exact Hwf | reflexivity]|].
      split; [cbn [appended t_rows]; rewrite length_app; cbn; lia|].
      split; [|discriminate].
      intros Hsingle x. rewrite count_open_appended, checkout_row_entity.
      destruct (String.eqb_spec eid x) as [<-|Hne].
      * rewrite (count_open_zero eid tb Hfree). lia.
      * specialize (Hsingle x). lia.
  - (* checkin *)
    destruct (find (row_open true U eid) (log_rows asc tb)) as [row|] eqn:Efind.
    + destruct (find_some_log _ _ _ _ _ _ Efind) as (n & ver & cells & -> & Hn & Hopen).
      destruct (checkin_quiet_found w eid e p None tb Hget Hlock Hproj Htb Hwf
                  U None None (define_class w) [] [] (a_message args) (a_force args)
                  _ _ _ Efind Hn) as (cs1 & o1 & -> & _).
      split; [reflexivity|]. eexists. unfold log_table. fields. unfold set_table.
      cbn [w_tables]. split; [apply Hlt|].
      split; [apply wf_rewritten; [exact Hwf | reflexivity]|].
      split; [cbn [rewritten t_rows]; rewrite replace_nth_length; lia|].
      split; [|discriminate].
      intros Hsingle x.
      pose proof (count_open_rewritten x tb n
                    (checked_in_cells (define_class w) (a_message args) cells)
                    (checked_in_closed _ _ _ _ _ _)) as Hle.
      specialize (Hsingle x). lia.
    + pose proof (find_none_rows _ _ _ _ _ Efind) as Hnone.
      destruct (checkin_quiet_none w eid e p None tb Hget Hlock Hproj Htb Hwf
                  U None None (define_class w) [] [] (a_message args) (a_force args) Hnone)
        as (cs1 & o1 & -> & _).
      split; [reflexivity|]. exists tb. unfold log_table. fields.
      repeat split; auto; try apply Hwf; try discriminate.
  - (* log *)
    destruct (log_quiet w eid e p None tb U None None (define_class w) [] [] (a_all args)
                        Hget Hlock Hproj Htb Hwf) as (cs1 & o1 & -> & _).
    split; [reflexivity|]. exists tb. unfold log_table. fields.
    repeat split; auto; apply Hwf.
Qed.

Lemma command_keeps_log_sound_witness :
  fst (main (mkArgs cmd_checkin "syn3" (VStr "v2") false VNone)
            (start Demo.alice Demo.w_multi []))
  = Return tt.
Proof.
  destruct (command_keeps_log_sound Demo.w_multi Demo.file Demo.project Demo.tb_multi
                                    Demo.alice
                                    (mkArgs cmd_checkin "syn3" (VStr "v2") false VNone))
    as (H & _).
  - reflexivity.
  - reflexivity.
  - reflexivity.
  - reflexivity.
  - split; [reflexivity | repeat constructor].
  - exact H.
Defined.

(** *** What is checked out is what the log shows *)




Lemma main_bounded_calls_witness :
  exists cs,
    calls (snd (main (mkArgs cmd_log "syn3" VNone true VNone) (start Demo.bob Demo.w_multi [])))
    = cs /\ count_calls is_row_write cs = 0%nat.
Proof.
  destruct (main_bounded_calls (mkArgs cmd_log "syn3" VNone true VNone)
                               (start Demo.bob Demo.w_multi []))
    as (_ & cs & Hcs & _ & _ & H).
  exists cs. split; [exact Hcs | apply H; reflexivity].
Defined.

(** *** The check-out race *)

(** X15.  [checkout] does not look again before it writes: once its
    query has found no open lock, the insert goes through whatever another
    client has written to the table since, so the entity gains one more
    open lock even when it has just been locked by someone else. *)
Theorem checkout_insert_not_rechecked
        (eid : string) (st st0 st1 : State) (etag : nat) (headers : list string)
        (ent : Entity) (t : tid) (tb : TableData) :
  _load_entity eid "Checkout out" st = (Return true, st0) ->
  _find_checked_out_row false st0 = (Return (None, etag, headers), st1) ->
  _entity (self st1) = Some ent ->
  _table (self st1) = Some t ->
  nth_error (w_tables (seen st1)) t = Some tb ->
  List.length (t_columns tb) = 5%nat ->
  let row := checkout_row (cls st1) (_user_ownerId (self st1)) (e_id ent) in
  checkout eid st
  = (Return tt,
     mkState (self st1) (cls st1) (set_table (seen st1) t (appended tb row))
             (tl (schedule st1))
             (calls st1 ++ [CallStoreTable (insert_req t row)])
             (stdout st1 ++ ["Entity successfully checked out."])) /\
  count_open (e_id ent) (appended tb row) = S (count_open (e_id ent) tb).
Proof.
  intros Hload Hfind He Ht Hn Hcols row. split.
  - unfold checkout. rewrite (bind_Return _ _ _ _ _ Hload). cbn [negb].
    rewrite (bind_Return _ _ _ _ _ Hfind).
    destruct st1 as [[o pr en cur] c w sch cs out]. cbn in He, Ht. subst en cur.
    subst row. cbn [self cls _user_ownerId] in *.
    unfold bind, get_self, attr, ret, remote, set_table_attr, set_self, print, store_table.
    fields. unfold seen in Hn. cbn [schedule world] in Hn. rewrite Hn. fields.
    unfold append_rows. cbn [forallb List.length andb]. rewrite Hcols. cbn [Nat.eqb].
    fields. unfold bind, get_self, set_self. fields.
    unfold seen, appended, checkout_row, insert_req. cbn [map schedule world].
    reflexivity.
  - rewrite count_open_appended. subst row. rewrite checkout_row_entity, String.eqb_refl. lia.
Qed.

Lemma checkout_insert_not_rechecked_witness :
  option_map (count_open "syn3")
             (log_table (snd (checkout "syn3" (start Demo.alice Demo.w0 Annex.race_schedule))))
  = Some 2%nat.
Proof.
  set (st := start Demo.alice Demo.w0 Annex.race_schedule).
  pose (st0 := snd (_load_entity "syn3" "Checkout out" st)).
  pose (st1 := snd (_find_checked_out_row false st0)).
  destruct (checkout_insert_not_rechecked "syn3" st st0 st1 0%nat (query_headers Demo.tb_empty)
                                          Demo.file 0%nat Annex.tb_bob) as [H _].
  - vm_compute. reflexivity.
  - vm_compute. reflexivity.
  - vm_compute. reflexivity.
  - vm_compute. reflexivity.
  - vm_compute. reflexivity.
  - reflexivity.
  - rewrite H. vm_compute. reflexivity.
Defined.

(** *** Loading a lockable entity *)

Lemma nearest_project_of w child n p :
  nearest_project w child n p ->
  forall depth, (n <= depth)%nat -> project_of depth w child = Return p.
Proof.
  induction 1 as [child parent Hget Hp | child parent n p Hget Hp _ IH]; intros depth Hle.
  - destruct depth as [|k]; [lia|]. cbn [project_of]. now rewrite Hget, Hp.
  - destruct depth as [|k]; [lia|]. cbn [project_of]. rewrite Hget, Hp. cbn [negb].
    apply IH. lia.
Qed.

Lemma nearest_project_is_Project w child n p :
  nearest_project w child n p -> is_Project p = true.
Proof. induction 1; auto. Qed.

Lemma ensure_access_log_lines p o pr en c w cs out :
  exists cs',
    _ensure_access_log p (mkState (mkSelf o pr en None) c w [] cs out)
    = (Return tt,
       mkState (mkSelf o pr en (Some (fst (ensure_table w p None)))) c
               (snd (ensure_table w p None)) [] (cs ++ cs')
               (out ++ ["Loading tables...";
                        match find_named SYT_TABLE_NAME (getChildren w p) with
                        | Some _ => "Loading table..."
                        | None => "Creating table..."
                        end]))
    /\ Forall (fun c => load_call c = true) cs'.
Proof.
  unfold _ensure_access_log, ensure_table.
  unfold bind, print, remote, get_self, set_table_attr, set_self, ret.
  fields.
  destruct (find_named SYT_TABLE_NAME (getChildren w p)) as [i|] eqn:E.
  - destruct (find_named_table _ _ _ E) as (tb & Hn & _).
    unfold bind, print, remote, get_self, set_table_attr, set_self, ret, get_table.
    fields. rewrite Hn. fields.
    eexists. rewrite <- ?app_assoc. split; [reflexivity|]. repeat constructor.
  - fields.
    unfold bind, print, remote, get_self, set_table_attr, set_self, ret, store_schema.
    fields.
    eexists. rewrite <- ?app_assoc. split; [reflexivity|]. repeat constructor.
Qed.

(** X16.  On a Folder or File whose nearest Project is within the
    recursion limit, [_load_entity] run by a fresh object without
    interference returns [True] with the entity it was asked for, that
    Project and the project's log table bound, after printing its
    progress lines; it makes no query and writes no row. *)
Theorem load_entity_binds
        (w : World) (eid operationMsg owner : string) (e p : Entity) (n : nat) :
  get w eid = Return e ->
  lockable e = true ->
  nearest_project w e n p ->
  (n <= recursion_limit)%nat ->
  let out := _load_entity eid operationMsg (start owner w []) in
  fst out = Return true /\
  e_id e = eid /\
  is_Project p = true /\
  exists t tb,
    self (snd out) = mkSelf owner (Some p) (Some e) (Some t) /\
    log_table (snd out) = Some tb /\
    t_name tb = SYT_TABLE_NAME /\ t_parentId tb = e_id p /\
    stdout (snd out)
    = ["Loading Entity..."; "Loading Project...";
       (operationMsg ++ " " ++ kind_of e ++ " " ++ e_name e ++ " (" ++ e_id e
        ++ ") from Project " ++ e_name p ++ " (" ++ e_id p ++ ")")%string;
       "Loading tables...";
       match find_named SYT_TABLE_NAME (getChildren w p) with
       | Some _ => "Loading table..."
       | None => "Creating table..."
       end] /\
    count_calls is_query (calls (snd out)) = 0%nat /\
    count_calls is_row_write (calls (snd out)) = 0%nat.
Proof.
  intros Hget Hlock Hnp Hn out.
  pose proof (nearest_project_of _ _ _ _ Hnp _ Hn) as Hproj.
  assert (Hrun : exists cs',
             _load_entity eid operationMsg (start owner w [])
             = (Return true,
                mkState (mkSelf owner (Some p) (Some e) (Some (fst (ensure_table w p None))))
                        (define_class w) (snd (ensure_table w p None)) [] cs'
                        ["Loading Entity..."; "Loading Project...";
                         (operationMsg ++ " " ++ kind_of e ++ " " ++ e_name e ++ " ("
                          ++ e_id e ++ ") from Project " ++ e_name p ++ " ("
                          ++ e_id p ++ ")")%string;
                         "Loading tables...";
                         match find_named SYT_TABLE_NAME (getChildren w p) with
                         | Some _ => "Loading table..."
                         | None => "Creating table..."
                         end])
             /\ Forall (fun c => load_call c = true) cs').
  { unfold start, init, _load_entity. unfold lockable in Hlock.
    unfold bind at 1. unfold print at 1. fields.
    unfold bind at 1. unfold remote at 1. fields.
    rewrite Hget.
    unfold bind at 1. unfold get_self at 1.
    unfold bind at 1. unfold set_self at 1.
    rewrite Hlock. fields.
    unfold bind at 1. unfold bind at 1. unfold print at 1. fields.
    unfold bind at 1.
    match goal with |- context [_load_project_for _ _ (mkState ?s ?c ?w [] ?cs ?out)] =>
      destruct (load_project_quiet recursion_limit e s c w cs out) as (cs1 & -> & Hcs1) end.
    rewrite Hproj.
    unfold bind at 1. unfold get_self at 1.
    unfold bind at 1. unfold set_self at 1. fields.
    unfold bind at 1. unfold print at 1. fields.
    match goal with
    |- context [_ensure_access_log _ (mkState (mkSelf ?o ?pr ?en None) ?c ?w [] ?cs ?out)] =>
      destruct (ensure_access_log_lines p o pr en c w cs out) as (cs2 & -> & Hcs2) end.
    unfold bind, get_self, ret. fields.
    eexists. split; [reflexivity|].
    apply Forall_app. split; [|exact Hcs2].
    cbn [app]. constructor; [reflexivity | exact Hcs1]. }
  destruct Hrun as (cs' & Hrun & Hcs).
  subst out. rewrite Hrun. cbn [fst snd self stdout calls].
  split; [reflexivity|].
  split; [exact (get_id _ _ _ Hget)|].
  split; [exact (nearest_project_is_Project _ _ _ _ Hnp)|].
  destruct (find_named_table _ _ _ (ensure_table_found w p)) as (tb & Htb & Hname & Hpar).
  exists (fst (ensure_table w p None)), tb.
  split; [reflexivity|].
  split; [unfold log_table; cbn [self world _table]; exact Htb|].
  split; [exact Hname|]. split; [exact Hpar|]. split; [reflexivity|].
  split; [|exact (load_calls_no_write _ Hcs)].
  unfold count_calls. clear -Hcs. induction Hcs as [|x l Hx _ IH]; [reflexivity|]. cbn.
  unfold load_call in Hx. apply andb_true_iff in Hx. destruct Hx as [_ Hx].
  destruct (is_query x); [discriminate | exact IH].
Qed.

Lemma load_entity_binds_witness :
  fst (_load_entity "syn3" "Checking in" (start Demo.alice Demo.w0 [])) = Return true.
Proof.
  destruct (load_entity_binds Demo.w0 "syn3" "Checking in" Demo.alice Demo.file Demo.project 2)
    as (H & _).
  - reflexivity.
  - reflexivity.
  - eapply np_above; [reflexivity | reflexivity |]. eapply np_parent; reflexivity.
  - unfold recursion_limit. lia.
  - exact H.
Defined.
